(** * InSAR_postprocessing: spatial subsetting, series extraction and fitting

    A shallow embedding of [InSAR_postprocessing.py].  numpy's float64
    numbers are read as exact rationals ([Q]); Python exceptions are an
    explicit outcome; a value numpy reports as [inf] or [nan] (under a
    RuntimeWarning, without raising) is the extra float value [NonFin].
    The external libraries the module calls (geopy's geodesic, numpy's
    [sqrt]/[sin]/[pi], [datetime.strptime] composed with [date2num],
    matplotlib's [Path.contains_points], scipy's [leastsq] and [minimize])
    are Section variables: every theorem holds for any implementation of
    them, under the hypotheses it names. *)

From Stdlib Require Import String Ascii QArith Qround Qabs Qpower ZArith List Bool Lia Lqa.
Import ListNotations.
Open Scope Q_scope.

(** ** Python outcomes *)

Inductive PyError : Type :=
| IndexError
| KeyError
| ValueError
| TypeError
| ZeroDivisionError
| Exception (msg : string).

Inductive result (A : Type) : Type :=
| Ok (a : A)
| Raise (e : PyError).
Arguments Ok {A} a.
Arguments Raise {A} e.

Definition bind {A B} (m : result A) (k : A -> result B) : result B :=
  match m with
  | Ok a => k a
  | Raise e => Raise e
  end.

Notation "x <- m ;; k" := (bind m (fun x => k))
  (at level 61, m at next level, right associativity).

Fixpoint mapM {A B} (f : A -> result B) (l : list A) : result (list B) :=
  match l with
  | [] => Ok []
  | a :: r => b <- f a ;; bs <- mapM f r ;; Ok (b :: bs)
  end.

Definition of_option {A} (e : PyError) (o : option A) : result A :=
  match o with
  | Some a => Ok a
  | None => Raise e
  end.

(** [l[i]] for a non-negative [i]. *)
Definition getitem {A} (l : list A) (i : nat) : result A :=
  of_option IndexError (nth_error l i).

(** [l[-1]]. *)
Definition getlast {A} (l : list A) : result A :=
  of_option IndexError (nth_error l (length l - 1)).

(** ** numpy float values and array helpers *)

Inductive npfloat : Type :=
| Fin (q : Q)
| NonFin.

Definition Qltb (x y : Q) : bool := negb (Qle_bool y x).

(** numpy's true division of float64 scalars: no exception on a zero
    divisor, the quotient is [inf] or [nan]. *)
Definition np_divide (a b : Q) : npfloat :=
  if Qeq_bool b 0 then NonFin else Fin (a / b).

(** The same division when the dividend may already be [inf] or [nan]. *)
Definition npf_divide (a : npfloat) (b : Q) : npfloat :=
  match a with
  | Fin q => np_divide q b
  | NonFin => NonFin
  end.

(** The latitudes geopy accepts in a point. *)
Definition valid_latitude (lat : Q) : bool :=
  Qle_bool (-90) lat && Qle_bool lat 90.

(** Python's [/] on Python floats. *)
Definition py_div (a b : Q) : result Q :=
  if Qeq_bool b 0 then Raise ZeroDivisionError else Ok (a / b).

(** One left-to-right scan keeping the first strict minimum: the index is
    [np.argmin], the value [np.min]. *)
Fixpoint argmin_from (i bi : nat) (bv : Q) (l : list Q) : nat * Q :=
  match l with
  | [] => (bi, bv)
  | x :: r =>
      if Qltb x bv then argmin_from (S i) i x r
      else argmin_from (S i) bi bv r
  end.

Definition np_argmin (l : list Q) : result nat :=
  match l with
  | [] => Raise ValueError
  | x :: r => Ok (fst (argmin_from 1 0 x r))
  end.

Definition np_min (l : list Q) : result Q :=
  match l with
  | [] => Raise ValueError
  | x :: r => Ok (snd (argmin_from 1 0 x r))
  end.

Fixpoint max_from (bv : Q) (l : list Q) : Q :=
  match l with
  | [] => bv
  | x :: r => max_from (if Qltb bv x then x else bv) r
  end.

Definition np_max (l : list Q) : result Q :=
  match l with
  | [] => Raise ValueError
  | x :: r => Ok (max_from x r)
  end.

Definition np_sum (l : list Q) : Q := fold_left Qplus l 0.

(** [np.mean] of a one-dimensional array: [nan] on an empty one. *)
Definition np_mean (l : list Q) : npfloat :=
  np_divide (np_sum l) (inject_Z (Z.of_nat (length l))).

(** [np.diff]. *)
Fixpoint np_diff (l : list Q) : list Q :=
  match l with
  | a :: ((b :: _) as r) => (b - a) :: np_diff r
  | _ => []
  end.

(** [np.where(mask)[0]] and [np.argwhere(mask)[:,0]]: the positions of
    the true entries, ascending. *)
Fixpoint where_from (i : nat) (mask : list bool) : list nat :=
  match mask with
  | [] => []
  | b :: r => if b then i :: where_from (S i) r else where_from (S i) r
  end.

Definition np_where (mask : list bool) : list nat := where_from 0 mask.

(** Element-wise binary operation with numpy's broadcasting of a
    one-element operand. *)
Fixpoint zip_with (f : Q -> Q -> Q) (a b : list Q) : list Q :=
  match a, b with
  | x :: a', y :: b' => f x y :: zip_with f a' b'
  | _, _ => []
  end.

Definition np_binop (f : Q -> Q -> Q) (a b : list Q) : result (list Q) :=
  if Nat.eqb (length a) (length b) then Ok (zip_with f a b)
  else match a, b with
       | [x], _ => Ok (map (f x) b)
       | _, [y] => Ok (map (fun x => f x y) a)
       | _, _ => Raise ValueError
       end.

(** ** pandas DataFrame *)

Record DataFrame : Type := mkDataFrame {
  columns : list string;
  rows : list (list Q)
}.

Fixpoint index_of (name : string) (l : list string) : option nat :=
  match l with
  | [] => None
  | h :: r => if String.eqb h name then Some 0%nat
              else option_map S (index_of name r)
  end.

(** [Data[name]] as an array. *)
Definition getcol (Data : DataFrame) (name : string) : result (list Q) :=
  k <- of_option KeyError (index_of name (columns Data)) ;;
  Ok (map (fun row => nth k row 0) (rows Data)).

(** [Data[mask]] with a boolean mask. *)
Fixpoint mask_rows (mask : list bool) (rs : list (list Q)) : list (list Q) :=
  match mask, rs with
  | b :: mask', r :: rs' => if b then r :: mask_rows mask' rs' else mask_rows mask' rs'
  | _, _ => []
  end.

(** [Data.iloc[index, k:]]. *)
Definition iloc_from (Data : DataFrame) (index k : nat) : list Q :=
  skipn k (nth index (rows Data) []).

(** [np.where([head.startswith('20') for head in headings])[0][0]]. *)
Definition first_date_column (headings : list string) : result nat :=
  getitem (np_where (map (String.prefix "20") headings)) 0.

(** [np.zeros((r, c))]: a negative dimension is refused. *)
Definition np_zeros (r : Z) (c : nat) : result (list (list Q)) :=
  if (r <? 0)%Z then Raise ValueError
  else Ok (repeat (repeat 0 c) (Z.to_nat r)).

(** [np.linspace(start, stop, num=num)] with the default [endpoint=True]. *)
Definition np_linspace (start stop : Q) (num : Z) : result (list Q) :=
  if (num <? 0)%Z then Raise ValueError
  else
    let n := Z.to_nat num in
    let delta := stop - start in
    let step := delta / inject_Z (num - 1) in
    Ok (map (fun i =>
               if (1 <? n)%nat && (i =? n - 1)%nat then stop
               else if (0 <? num - 1)%Z
                    then inject_Z (Z.of_nat i) * step + start
                    else inject_Z (Z.of_nat i) * delta + start)
            (seq 0 n)).

(** [A[i,:] = v] on a two-dimensional array held as a list of rows. *)
Fixpoint set_row {A} (i : nat) (v : A) (l : list A) : result (list A) :=
  match l, i with
  | [], _ => Raise IndexError
  | _ :: r, O => Ok (v :: r)
  | a :: r, S i' => r' <- set_row i' v r ;; Ok (a :: r')
  end.

(** A [for i in idxs:] loop over a state. *)
Fixpoint for_each {S} (body : nat -> S -> result S) (idxs : list nat) (s : S)
  : result S :=
  match idxs with
  | [] => Ok s
  | i :: r => s' <- body i s ;; for_each body r s'
  end.

(** [range(0, n)] for a possibly negative [n]. *)
Definition py_range (n : Z) : list nat := seq 0 (Z.to_nat n).

Definition sq (x : Q) : Q := x ^ 2.

Definition len (l : list Q) : Q := inject_Z (Z.of_nat (length l)).

(** The result object of [scipy.optimize.minimize]: [sln.x] and [sln.fun]. *)
Record OptimizeResult : Type := mkOptimizeResult {
  sln_x : Q * Q * Q * Q;
  sln_fun : npfloat
}.

Definition bounds : Type := (Q * Q) * (Q * Q) * (Q * Q) * (Q * Q).

Definition within (b : Q * Q) (v : Q) : Prop := fst b <= v /\ v <= snd b.

Definition in_bounds (b : bounds) (x : Q * Q * Q * Q) : Prop :=
  let '(b0, b1, b2, b3) := b in
  let '(x0, x1, x2, x3) := x in
  within b0 x0 /\ within b1 x1 /\ within b2 x2 /\ within b3 x3.

(** A Python argument that is either a string or a number. *)
Inductive pyval : Type :=
| PyStr (s : string)
| PyNum (q : Q).

(** The store of numpy arrays: a reference is a position in it, and an
    allocation appends. *)
Definition heap : Type := list (list Q).
Definition ref : Type := nat.

Definition deref (h : heap) (r : ref) : list Q := nth r h [].

(** ** Stand-ins for the external libraries, used to run the model *)

(** A truncated square root on the rationals, to six decimals. *)
Definition sqrt_trunc (x : Q) : Q :=
  Z.sqrt (Qnum x * 1000000000000 / Z.pos (Qden x)) # 1000000.

(** The first two terms of the sine series. *)
Definition sin_series (x : Q) : Q := x - x * x * x / 6.

Definition pi_approx : Q := 355 # 113.

(** A flat, axis-aligned distance in metres between two (lat, lon) points. *)
Definition flat_distance (a b : Q * Q) : Q :=
  111320 * (Qabs (fst a - fst b) + Qabs (snd a - snd b)).

Fixpoint digits_value (acc : Z) (s : string) : option Z :=
  match s with
  | EmptyString => Some acc
  | String c r =>
      let n := Z.of_nat (nat_of_ascii c) in
      if ((48 <=? n) && (n <=? 57))%Z then digits_value (acc * 10 + (n - 48)) r
      else None
  end.

(** Labels of eight digits, read as one number: enough of a date axis to
    run the model (only the format ["%Y%m%d"] is recognised). *)
Definition digits_datenum (text fmt : string) : option Q :=
  if String.eqb fmt "%Y%m%d" then
    if Nat.eqb (String.length text) 8 then option_map inject_Z (digits_value 0 text)
    else None
  else None.

(** Containment in the axis-aligned bounding box of the vertices. *)
Definition bbox_contains (p : list (Q * Q)) (q : Q * Q) : bool :=
  match p with
  | [] => false
  | v :: r =>
      Qle_bool (snd (argmin_from 1 0 (fst v) (map fst r))) (fst q)
      && Qle_bool (fst q) (max_from (fst v) (map fst r))
      && Qle_bool (snd (argmin_from 1 0 (snd v) (map snd r))) (snd q)
      && Qle_bool (snd q) (max_from (snd v) (map snd r))
  end.

Definition clip (b : Q * Q) (v : npfloat) : Q :=
  match v with
  | NonFin => fst b
  | Fin q => if Qltb q (fst b) then fst b else if Qltb (snd b) q then snd b else q
  end.

Definition feasible (b : Q * Q) : bool := Qle_bool (fst b) (snd b).

(** A solver that stops at its projected starting point, and refuses
    bounds whose lower end exceeds the upper one. *)
Definition minimize_projected
  (f : Q * Q * Q * Q -> result npfloat)
  (guess : npfloat * npfloat * npfloat * npfloat) (b : bounds)
  : result OptimizeResult :=
  let '(b0, b1, b2, b3) := b in
  let '(g0, g1, g2, g3) := guess in
  if feasible b0 && feasible b1 && feasible b2 && feasible b3 then
    let x := (clip b0 g0, clip b1 g1, clip b2 g2, clip b3 g3) in
    v <- f x ;;
    Ok (mkOptimizeResult x v)
  else Raise ValueError.

(** A least-squares solver that stops at its starting point. *)
Definition leastsq_start
  (f : Q * Q -> result (list Q)) (guess : npfloat * npfloat)
  : result (npfloat * npfloat) :=
  match guess with
  | (Fin a, Fin b) => _ <- f (a, b) ;; Ok (Fin a, Fin b)
  | _ => Ok guess
  end.

(** Three pixels with two acquisition dates; the first and the third
    share their coordinates. *)
Definition sample_data : DataFrame :=
  mkDataFrame ["Latitude"; "Longitude"; "20150101"; "20150113"]%string
              [[0; 0; 1; 2]; [1; 1; 3; 4]; [0; 0; 5; 6]].

(** One pixel, and no column label that begins with "20". *)
Definition undated_data : DataFrame :=
  mkDataFrame ["Latitude"; "Longitude"; "v1"]%string [[0; 0; 1]].

(** Three pixels around the unit square. *)
Definition square_data : DataFrame :=
  mkDataFrame ["Latitude"; "Longitude"; "20150101"]%string
              [[1 # 2; 1 # 2; 1]; [2; 2; 3]; [1 # 5; 7 # 10; 9]].

(** A frame as the portal exports it, with X/Y coordinate labels. *)
Definition xy_data : DataFrame :=
  mkDataFrame ["ID"; "X"; "Y"; "20150101"]%string [[1; -120; 36; 4]].

(** Three pixels: one with data, one all zero, one whose only non-zero
    cells are its coordinates. *)
Definition zeros_data : DataFrame :=
  mkDataFrame ["Latitude"; "Longitude"; "20150101"; "20150113"]%string
              [[0; 0; 3; 0]; [0; 0; 0; 0]; [36; -120; 0; 0]].

(** A store holding a series at reference 0 and its dates at reference 1. *)
Definition sample_heap : heap := [[5; 7; 9]; [10; 20; 30]].

(** ** The module's functions *)

Section Model.

(** The length [geopy.distance.distance(a, b).m] returns for two
    (lat, lon) points it accepts. *)
Variable geodesic_m : Q * Q -> Q * Q -> Q.
(** [np.sqrt], [np.sin] and [np.pi]. *)
Variable np_sqrt : Q -> Q.
Variable np_sin : Q -> Q.
Variable np_pi : Q.
(** [date2num(dt.strptime(text, fmt).date())]; [None] is strptime's
    ValueError. *)
Variable strptime_num : string -> string -> option Q.
(** [path.Path(vertices).contains_points([q])[0]]. *)
Variable contains_point : list (Q * Q) -> Q * Q -> bool.
(** [leastsq(func, x0)[0]] for a two-parameter model; the estimates may
    be [inf] or [nan]. *)
Variable leastsq :
  (Q * Q -> result (list Q)) -> npfloat * npfloat -> result (npfloat * npfloat).
(** [scipy.optimize.minimize(fun, x0, bounds=bnds)]. *)
Variable minimize :
  (Q * Q * Q * Q -> result npfloat) -> npfloat * npfloat * npfloat * npfloat ->
  bounds -> result OptimizeResult.

(** *** 2. Functions which extract subsets of inSAR data *)

(** [path.Path(vertices)]: matplotlib refuses a vertex list that is not
    of shape (N, 2), as the empty list is. *)
Definition path_Path (vertices : list (Q * Q)) : result (list (Q * Q)) :=
  match vertices with
  | [] => Raise ValueError
  | _ => Ok vertices
  end.

(** [p.contains_points(q)]: an empty list of points is refused for the
    same reason; otherwise each point is tested on its own. *)
Definition contains_points (p q : list (Q * Q)) : result (list bool) :=
  match q with
  | [] => Raise ValueError
  | _ => Ok (map (contains_point p) q)
  end.

Definition inpolygon (xq yq xv yv : list Q) : result (list bool) :=
  q <- mapM (fun i => x <- getitem xq i ;; y <- getitem yq i ;; Ok (x, y))
            (seq 0 (length xq)) ;;
  vertices <- mapM (fun i => x <- getitem xv i ;; y <- getitem yv i ;; Ok (x, y))
                   (seq 0 (length xv)) ;;
  p <- path_Path vertices ;;
  contains_points p q.

Definition extract_from_polygon (Polylon Polylat : list Q) (Data : DataFrame)
  : result DataFrame :=
  lat <- getcol Data "Latitude" ;;
  lon <- getcol Data "Longitude" ;;
  inbox <- inpolygon lon lat Polylon Polylat ;;
  Ok (mkDataFrame (columns Data) (mask_rows inbox (rows Data))).

(** [np.sqrt((Data["Latitude"] - lat)**2 + (Data["Longitude"] - lon)**2)]. *)
Definition pixel_dist (lat lon : Q) (Data : DataFrame) : result (list Q) :=
  Lat <- getcol Data "Latitude" ;;
  Lon <- getcol Data "Longitude" ;;
  Ok (zip_with (fun a b => np_sqrt (sq (a - lat) + sq (b - lon))) Lat Lon).

(** The nearest-pixel lookup that opens [extract_series_from_latlon]
    (tolerance 0.5) and [plot_series_latlon] (tolerance 1). *)
Definition nearest_pixel (tol : Q) (msg : string) (lat lon : Q) (Data : DataFrame)
  : result nat :=
  dist <- pixel_dist lat lon Data ;;
  m <- np_min dist ;;
  if Qle_bool tol m then Raise (Exception msg)
  else np_argmin dist.

Definition no_pixels_half : string :=
  "No pixels found within 0.5 degree of given lat/lon.".

Definition no_pixels_one : string :=
  "No pixels found within 1 degree of given lat/lon.".

Definition parse_dates (fmt : string) (labels : list string) : result (list Q) :=
  mapM (fun date => of_option ValueError (strptime_num date fmt)) labels.

Definition extract_series_from_latlon (lat lon : Q) (Data : DataFrame) (factor : Q)
  : result (list Q * list Q) :=
  index <- nearest_pixel (1 # 2) no_pixels_half lat lon Data ;;
  let headings := columns Data in
  idx_firstdate <- first_date_column headings ;;
  dates <- parse_dates "%Y%m%d" (skipn idx_firstdate headings) ;;
  let Series := map (Qmult factor) (iloc_from Data index idx_firstdate) in
  Ok (dates, Series).

(** The lookup of [plot_series_latlon]. *)
Definition plot_series_latlon_index (lat lon : Q) (Data : DataFrame) : result nat :=
  nearest_pixel 1 no_pixels_one lat lon Data.

(** *** 5. Miscellaneous functions *)

Definition get_dates (Data : DataFrame) : result (list Q) :=
  let headings := columns Data in
  idx_firstdate <- first_date_column headings ;;
  parse_dates "%Y%m%d" (skipn idx_firstdate headings).

Definition get_mean_series (Data : DataFrame) : result (list npfloat * nat) :=
  let headings := columns Data in
  idx_firstdate <- first_date_column headings ;;
  let Series := map (skipn idx_firstdate) (rows Data) in
  let mean_def :=
    map (fun j => np_mean (map (fun r => nth j r 0) Series))
        (seq 0 (length headings - idx_firstdate)) in
  Ok (mean_def, length (rows Data)).

Definition rezero_series (series dates : ref) (zerodate : pyval)
  (zerodateasfloat : bool) (h : heap) : result (ref * heap) :=
  dateasnum <-
    (if negb zerodateasfloat then
       match zerodate with
       | PyStr s => of_option ValueError (strptime_num s "%b-%Y")
       | PyNum _ => Raise TypeError
       end
     else
       match zerodate with
       | PyNum q => Ok q
       | PyStr _ => Raise TypeError
       end) ;;
  idx <- np_argmin (map (fun d => Qabs (d - dateasnum)) (deref h dates)) ;;
  v <- getitem (deref h series) idx ;;
  let newdata := map (fun x => x - v) (deref h series) in
  Ok (length h, h ++ [newdata]).

Definition corner_ring (i : nat) (lats lons : list Q) (unitnorm : Q * Q) (width : Q)
  : result (list Q * list Q) :=
  lon_i <- getitem lons i ;;
  lat_i <- getitem lats i ;;
  lon_j <- getitem lons (i + 1) ;;
  lat_j <- getitem lats (i + 1) ;;
  let topright := (lon_i - fst unitnorm * width, lat_i - snd unitnorm * width) in
  let topleft := (lon_j - fst unitnorm * width, lat_j - snd unitnorm * width) in
  let botright := (lon_i + fst unitnorm * width, lat_i + snd unitnorm * width) in
  let botleft := (lon_j + fst unitnorm * width, lat_j + snd unitnorm * width) in
  let rectx := [fst topright; fst topleft; fst botleft; fst botright; fst topright] in
  let recty := [snd topright; snd topleft; snd botleft; snd botright; snd topright] in
  Ok (rectx, recty).

(** [geopy.distance.distance(a, b).m]: building a point whose latitude
    is outside [-90, 90] raises ValueError. *)
Definition geopy_distance_m (a b : Q * Q) : result Q :=
  if valid_latitude (fst a) && valid_latitude (fst b)
  then Ok (geodesic_m a b)
  else Raise ValueError.

Definition segment_line_to_boxes (x0 x1 y0 y1 spacing width : Q)
  : result (list (list Q) * list (list Q) * list Q * list Q) :=
  let coords1 := (y0, x0) in
  let coords2 := (y1, x1) in
  Len <- geopy_distance_m coords1 coords2 ;;
  quot <- py_div Len spacing ;;
  let nopoints := Qfloor quot in
  lats <- np_linspace y0 y1 nopoints ;;
  lons <- np_linspace x0 x1 nopoints ;;
  let linevector := (x1 - x0, y1 - y0) in
  let perpvector := (- snd linevector, fst linevector) in
  NormLen <- geopy_distance_m (0, 0) perpvector ;;
  inv <- py_div 1 NormLen ;;
  let unitnorm := (inv * fst perpvector, inv * snd perpvector) in
  BOXESX <- np_zeros (Z.of_nat (length lats) - 1) 5 ;;
  let BOXESY := BOXESX in
  boxes <- for_each
             (fun i (B : list (list Q) * list (list Q)) =>
                rect <- corner_ring i lats lons unitnorm width ;;
                bx <- set_row i (fst rect) (fst B) ;;
                by_ <- set_row i (snd rect) (snd B) ;;
                Ok (bx, by_))
             (py_range (Z.of_nat (length lats) - 1)) (BOXESX, BOXESY) ;;
  Ok (fst boxes, snd boxes, lats, lons).

(** *** 4. Functions which fit or detrend the data *)

Definition guess_slope (Series t : list Q) : result npfloat :=
  mx <- np_max Series ;;
  mn <- np_min Series ;;
  t_last <- getlast t ;;
  t_first <- getitem t 0 ;;
  Ok (np_divide (mx - mn) (t_last - t_first)).

(** [lambda x: x[0]*(t-t[0]) + x[1] - data]. *)
Definition line_residuals (t data : list Q) (x : Q * Q) : result (list Q) :=
  t0 <- getitem t 0 ;;
  np_binop Qminus (map (fun ti => fst x * (ti - t0) + snd x) t) data.

Definition fit_straight_line_to_series (Series dates : list Q)
  : result (npfloat * npfloat * npfloat) :=
  let t := dates in
  let data := Series in
  guess_intercept <- getitem Series 0 ;;
  guess_slope_ <- guess_slope Series t ;;
  est <- leastsq (line_residuals t data) (guess_slope_, Fin guess_intercept) ;;
  let est_slope := fst est in
  let est_intercept := snd est in
  t0 <- getitem t 0 ;;
  match est_slope, est_intercept with
  | Fin slope, Fin intercept =>
      let data_fit := map (fun ti => slope * (ti - t0) + intercept) t in
      d <- np_binop Qminus (map sq Series) (map sq data_fit) ;;
      let misfit :=
        np_divide (np_sum (map (fun e => np_sqrt (Qabs e)) d)) (len dates) in
      Ok (misfit, est_slope, est_intercept)
  | _, _ =>
      (* [data_fit[0]] is [est_slope * 0 + est_intercept], which is [nan]
         or [inf]: the subtraction still checks the shapes, and the sum
         and the misfit are not finite *)
      _ <- np_binop Qminus (map sq Series) (map (fun _ => 0) t) ;;
      Ok (NonFin, est_slope, est_intercept)
  end.

(** [np.argwhere(np.diff(Series)<=0)[0][0]]. *)
Definition first_downturn (Series : list Q) : result nat :=
  getitem (np_where (map (fun d => Qle_bool d 0) (np_diff Series))) 0.

Definition guess_period : Q := 365.

Definition guess_phase (Series t : list Q) : result Q :=
  i <- first_downturn Series ;;
  t_i <- getitem t i ;;
  t0 <- getitem t 0 ;;
  Ok (guess_period / 4 - (t_i - t0)).

(** [lambda x: np.linalg.norm(x[0]*np.sin((2*np.pi*(t-t[0]-x[2]))/x[1]) + x[3] - data)]. *)
Definition optimize_func (t data : list Q) (x : Q * Q * Q * Q) : result npfloat :=
  let '(x0, x1, x2, x3) := x in
  t0 <- getitem t 0 ;;
  r <- np_binop Qminus
         (map (fun ti => x0 * np_sin ((2 * np_pi * (ti - t0 - x2)) / x1) + x3) t)
         data ;;
  if Qeq_bool x1 0 then Ok NonFin
  else Ok (Fin (np_sqrt (np_sum (map sq r)))).

Definition bnds : bounds := ((0, 30), (0, 400), (-20, 400), (0, 100)).

Definition fit_sinusoid_to_series (Series dates : list Q)
  : result (npfloat * Q * Q * Q * Q) :=
  let t := dates in
  let data := Series in
  let guess_mean := np_mean data in
  guess_phase_ <- guess_phase Series t ;;
  mx <- np_max Series ;;
  mn <- np_min Series ;;
  let guess_amp := (mx - mn) / 2 in
  let guess := (Fin guess_amp, Fin guess_period, Fin guess_phase_, guess_mean) in
  sln <- minimize (optimize_func t data) guess bnds ;;
  let '(est_amp, est_period, est_phase, est_mean) := sln_x sln in
  let misfit := npf_divide (sln_fun sln) (len t) in
  Ok (misfit, est_amp, est_period, est_phase, est_mean).

(** *** 1. Functions which import things *)

(** [DataFrame.rename(columns=mapper)] on the labels. *)
Definition rename_labels (mapper : list (string * string)) (cols : list string)
  : list string :=
  map (fun c =>
         match find (fun p => String.eqb (fst p) c) mapper with
         | Some p => snd p
         | None => c
         end) cols.

Definition label_in (name : string) (cols : list string) : bool :=
  existsb (String.eqb name) cols.

(** What [import_InSAR_csv] does to the frame [pd.read_csv] returned. *)
Definition import_InSAR_csv_rename (csvData : DataFrame) : DataFrame :=
  let csvData :=
    if label_in "X" (columns csvData)
    then mkDataFrame
           (rename_labels [("X", "Longitude"); ("Y", "Latitude")]%string (columns csvData))
           (rows csvData)
    else csvData in
  if label_in "latitude" (columns csvData)
  then mkDataFrame
         (rename_labels [("longitude", "Longitude"); ("latitude", "Latitude")]%string
                        (columns csvData))
         (rows csvData)
  else csvData.

(** *** 5. Miscellaneous functions, continued *)

(** The entries of [l] at the true positions of [mask]. *)
Fixpoint select_mask {A} (mask : list bool) (l : list A) : list A :=
  match mask, l with
  | b :: mask', a :: l' => if b then a :: select_mask mask' l' else select_mask mask' l'
  | _, _ => []
  end.

(** [Data.drop(names, axis=1)]: every name must be a column. *)
Definition drop_columns (names : list string) (Data : DataFrame) : result DataFrame :=
  _ <- mapM (fun name => of_option KeyError (index_of name (columns Data))) names ;;
  let keep := map (fun c => negb (label_in c names)) (columns Data) in
  Ok (mkDataFrame (select_mask keep (columns Data))
                  (map (select_mask keep) (rows Data))).

Definition remove_rows_all_zeros (Data : DataFrame) : result DataFrame :=
  data_raw <- drop_columns ["Longitude"; "Latitude"]%string Data ;;
  let booool := map (existsb (fun x => negb (Qeq_bool x 0))) (rows data_raw) in
  Ok (mkDataFrame (columns Data) (mask_rows booool (rows Data))).

(** The loop of [convert_bytes]; the pair returned is the one the source
    formats with ["%3.1f %s"], and [None] is falling off the loop. *)
Fixpoint convert_bytes_loop (units : list string) (num : Q) : option (Q * string) :=
  match units with
  | [] => None
  | x :: r =>
      if Qltb num 1024 then Some (num, x)
      else convert_bytes_loop r (num / 1024)
  end.

Definition convert_bytes (num : Q) : option (Q * string) :=
  convert_bytes_loop ["bytes"; "KB"; "MB"; "GB"; "TB"]%string num.

(** ** Notions used to state the properties *)

(** [v] is a least element of [l] and [i] is the first position holding
    one. *)
Definition first_least (l : list Q) (i : nat) (v : Q) : Prop :=
  nth_error l i = Some v /\
  (forall j x, nth_error l j = Some x -> v <= x) /\
  (forall j x, (j < i)%nat -> nth_error l j = Some x -> v < x).

(** The distance of one record from the query, as [pixel_dist] computes it
    from the columns at positions [klat] and [klon]. *)
Definition record_dist (lat lon : Q) (klat klon : nat) (r : list Q) : Q :=
  np_sqrt (sq (nth klat r 0 - lat) + sq (nth klon r 0 - lon)).

Definition no_date_column (Data : DataFrame) : Prop :=
  forall h, In h (columns Data) -> String.prefix "20" h = false.

(** How [rezero_series] reads its reference date: a number when
    [zerodateasfloat] is set, a 'Mon-YYYY' string otherwise. *)
Definition reference_date (zerodate : pyval) (zerodateasfloat : bool) (q : Q) : Prop :=
  (zerodateasfloat = true /\ zerodate = PyNum q) \/
  (zerodateasfloat = false /\
   exists s, zerodate = PyStr s /\ strptime_num s "%b-%Y" = Some q).

(** A five-point corner ring whose last point repeats the first. *)
Definition closed_ring (ring : list Q) : Prop :=
  length ring = 5%nat /\ nth_error ring 0 = nth_error ring 4.

(** [m] is a greatest (resp. least) element of [l]. *)
Definition is_max (l : list Q) (m : Q) : Prop :=
  In m l /\ forall x, In x l -> x <= m.

Definition is_min (l : list Q) (m : Q) : Prop :=
  In m l /\ forall x, In x l -> m <= x.

(** The misfit in the spec's words: the mean, over the points [(t, value)],
    of [sqrt(|value^2 - fitted^2|)] with
    [fitted = slope * (t - t0) + intercept]. *)
Definition mean_spec (l : list Q) : Q :=
  fold_right Qplus 0 l / inject_Z (Z.of_nat (length l)).

Definition fitted_line (slope intercept t0 t : Q) : Q :=
  slope * (t - t0) + intercept.

Definition misfit_spec (slope intercept t0 : Q) (points : list (Q * Q)) : Q :=
  mean_spec
    (map (fun p => np_sqrt (Qabs (snd p ^ 2 - fitted_line slope intercept t0 (fst p) ^ 2)))
         points).

(** The objective in the spec's words: the sinusoid
    [amplitude * sin(2 pi (t - t0 - phase) / period) + mean], and the sum
    over the points [(t, value)] of the squared differences between it and
    the value, whose square root is the L2 norm. *)
Definition sinusoid_model (amp period phase mean t0 t : Q) : Q :=
  amp * np_sin ((2 * np_pi * (t - t0 - phase)) / period) + mean.

Definition sum_sq_residuals_spec (amp period phase mean t0 : Q) (points : list (Q * Q))
  : Q :=
  fold_right Qplus 0
    (map (fun p => (sinusoid_model amp period phase mean t0 (fst p) - snd p) ^ 2) points).

(** The series does not rise from point [i] to point [i+1]. *)
Definition downturn_at (Series : list Q) (i : nat) : Prop :=
  exists a b, nth_error Series i = Some a /\ nth_error Series (S i) = Some b /\
              b - a <= 0.

Definition first_downturn_at (Series : list Q) (i : nat) : Prop :=
  downturn_at Series i /\ forall j, (j < i)%nat -> ~ downturn_at Series j.

(** The corner ring of box [i], for sample points that exist. *)
Definition ring_at (lats lons : list Q) (unitnorm : Q * Q) (width : Q) (i : nat)
  : list Q * list Q :=
  let lon_i := nth i lons 0 in
  let lat_i := nth i lats 0 in
  let lon_j := nth (i + 1) lons 0 in
  let lat_j := nth (i + 1) lats 0 in
  ([lon_i - fst unitnorm * width; lon_j - fst unitnorm * width;
    lon_j + fst unitnorm * width; lon_i + fst unitnorm * width;
    lon_i - fst unitnorm * width],
   [lat_i - snd unitnorm * width; lat_j - snd unitnorm * width;
    lat_j + snd unitnorm * width; lat_i + snd unitnorm * width;
    lat_i - snd unitnorm * width]).

(** Every row has one cell per column. *)
Definition rectangular (Data : DataFrame) : Prop :=
  forall r, In r (rows Data) -> length r = length (columns Data).

(** A cell of [r] outside the Longitude and Latitude columns is not zero. *)
Definition has_nonzero_data (cols : list string) (r : list Q) : Prop :=
  exists j c x,
    nth_error cols j = Some c /\ c <> "Longitude"%string /\ c <> "Latitude"%string /\
    nth_error r j = Some x /\ ~ x == 0.

(** The unit normal the source scales the half-width with. *)
Definition unit_normal (x0 x1 y0 y1 : Q) : Q * Q :=
  (1 / geodesic_m (0, 0) (- (y1 - y0), x1 - x0) * - (y1 - y0),
   1 / geodesic_m (0, 0) (- (y1 - y0), x1 - x0) * (x1 - x0)).

(** A column other than the two coordinate columns. *)
Definition data_column (c : string) : bool :=
  negb (label_in c ["Longitude"; "Latitude"]%string).

(** The mask entry [remove_rows_all_zeros] computes for a row. *)
Definition nonzero_data_row (cols : list string) (r : list Q) : bool :=
  existsb (fun x => negb (Qeq_bool x 0)) (select_mask (map data_column cols) r).

(** ** Facts about the array helpers *)

Lemma Qltb_lt (x y : Q) : Qltb x y = true <-> x < y.
Proof.
  unfold Qltb. rewrite negb_true_iff. split; intro H.
  - apply Qnot_le_lt. intro Hle. apply Qle_bool_iff in Hle. congruence.
  - destruct (Qle_bool y x) eqn:E; [|reflexivity].
    apply Qle_bool_iff in E. lra.
Qed.

Lemma Qltb_ge (x y : Q) : Qltb x y = false <-> y <= x.
Proof.
  unfold Qltb. rewrite negb_false_iff. apply Qle_bool_iff.
Qed.

Lemma bind_ok {A B} (m : result A) (k : A -> result B) (b : B) :
  bind m k = Ok b -> exists a, m = Ok a /\ k a = Ok b.
Proof. destruct m; simpl; [eauto | discriminate]. Qed.

Lemma getitem_ok {A} (l : list A) (i : nat) (a : A) :
  getitem l i = Ok a <-> nth_error l i = Some a.
Proof.
  unfold getitem. destruct (nth_error l i); simpl; split; congruence.
Qed.

Lemma getitem_lt {A} (l : list A) (i : nat) :
  (i < length l)%nat -> exists a, getitem l i = Ok a /\ nth_error l i = Some a.
Proof.
  intro H. unfold getitem. destruct (nth_error l i) as [a|] eqn:E.
  - exists a. split; reflexivity.
  - apply nth_error_None in E. lia.
Qed.

(** The scan returns the first position of a least element. *)
Lemma argmin_from_spec (l pre : list Q) (i bi : nat) (bv : Q) :
  length pre = i ->
  nth_error pre bi = Some bv ->
  (forall j x, nth_error pre j = Some x -> bv <= x) ->
  (forall j x, (j < bi)%nat -> nth_error pre j = Some x -> bv < x) ->
  nth_error (pre ++ l) (fst (argmin_from i bi bv l))
    = Some (snd (argmin_from i bi bv l)) /\
  (forall j x, nth_error (pre ++ l) j = Some x -> snd (argmin_from i bi bv l) <= x) /\
  (forall j x, (j < fst (argmin_from i bi bv l))%nat ->
               nth_error (pre ++ l) j = Some x -> snd (argmin_from i bi bv l) < x).
Proof.
  revert pre i bi bv.
  induction l as [|x r IH]; intros pre i bi bv Hlen Hbi Hmin Hfirst; simpl.
  - rewrite app_nil_r. auto.
  - assert (Happ : pre ++ x :: r = (pre ++ [x]) ++ r)
      by (rewrite <- app_assoc; reflexivity).
    rewrite Happ.
    assert (Hsplit : forall j y, nth_error (pre ++ [x]) j = Some y ->
              ((j < i)%nat /\ nth_error pre j = Some y) \/ (j = i /\ y = x)).
    { intros j y Hj. destruct (Nat.lt_ge_cases j i) as [Hlt|Hge].
      - left. split; [assumption|]. rewrite nth_error_app1 in Hj by lia. assumption.
      - right. rewrite nth_error_app2 in Hj by lia. rewrite Hlen in Hj.
        destruct (j - i)%nat as [|k] eqn:Ek; simpl in Hj.
        + split; [lia | congruence].
        + destruct k; discriminate. }
    destruct (Qltb x bv) eqn:E.
    + apply Qltb_lt in E.
      apply IH.
      * rewrite length_app. simpl. lia.
      * rewrite nth_error_app2 by lia. rewrite Hlen, Nat.sub_diag. reflexivity.
      * intros j y Hj. destruct (Hsplit j y Hj) as [[_ Hp]|[_ ->]].
        -- specialize (Hmin j y Hp). lra.
        -- lra.
      * intros j y Hlt Hj. destruct (Hsplit j y Hj) as [[_ Hp]|[Hji _]]; [|lia].
        specialize (Hmin j y Hp). lra.
    + apply Qltb_ge in E.
      apply IH.
      * rewrite length_app. simpl. lia.
      * rewrite nth_error_app1; [assumption|].
        apply nth_error_Some. congruence.
      * intros j y Hj. destruct (Hsplit j y Hj) as [[_ Hp]|[_ ->]].
        -- exact (Hmin j y Hp).
        -- assumption.
      * intros j y Hlt Hj. destruct (Hsplit j y Hj) as [[_ Hp]|[Hji _]].
        -- exact (Hfirst j y Hlt Hp).
        -- assert (bi < i)%nat; [|lia].
           rewrite <- Hlen. apply nth_error_Some. congruence.
Qed.

Lemma np_argmin_min (l : list Q) :
  l <> [] ->
  exists i v, np_argmin l = Ok i /\ np_min l = Ok v /\ first_least l i v.
Proof.
  destruct l as [|x r]; [congruence|]. intros _.
  exists (fst (argmin_from 1 0 x r)), (snd (argmin_from 1 0 x r)).
  split; [reflexivity|]. split; [reflexivity|].
  apply (argmin_from_spec r [x] 1 0 x); try reflexivity.
  - intros [|[|j]] y Hj; simpl in Hj; try discriminate.
    injection Hj as <-. lra.
  - intros j y Hlt. lia.
Qed.

Lemma first_least_unique (l : list Q) (i k : nat) (v w : Q) :
  first_least l i v -> first_least l k w -> i = k /\ v = w.
Proof.
  intros (Hi & Hmi & Hfi) (Hk & Hmk & Hfk).
  assert (i = k).
  { destruct (Nat.lt_trichotomy i k) as [H|[H|H]]; [|assumption|].
    - specialize (Hfk i v H Hi). specialize (Hmi k w Hk). lra.
    - specialize (Hfi k w H Hk). specialize (Hmk i v Hi). lra. }
  subst k. split; [reflexivity | congruence].
Qed.

Lemma where_from_spec (mask : list bool) (i k : nat) (rest : list nat) :
  where_from i mask = k :: rest ->
  (i <= k)%nat /\ nth_error mask (k - i) = Some true /\
  (forall j, (j < k - i)%nat -> nth_error mask j = Some false).
Proof.
  revert i. induction mask as [|b r IH]; intros i H; simpl in H; [discriminate|].
  destruct b.
  - injection H as <- _. rewrite Nat.sub_diag. repeat split; [lia | lia].
  - destruct (IH (S i) H) as (Hle & Hk & Hbefore).
    replace (k - i)%nat with (S (k - S i)) by lia.
    repeat split; [lia | exact Hk |].
    intros [|j] Hj; [reflexivity|]. simpl. apply Hbefore. lia.
Qed.

Lemma where_from_nil (mask : list bool) (i : nat) :
  where_from i mask = [] <-> forall b, In b mask -> b = false.
Proof.
  revert i. induction mask as [|b r IH]; intro i; simpl.
  - split; [intros _ b [] | reflexivity].
  - destruct b.
    + split; [discriminate|]. intro H. specialize (H true (or_introl eq_refl)). discriminate.
    + rewrite IH. split.
      * intros H b [<-|Hb]; auto.
      * intros H b Hb. apply H. right. assumption.
Qed.

Lemma zip_with_map {X} (f : Q -> Q -> Q) (a b : X -> Q) (l : list X) :
  zip_with f (map a l) (map b l) = map (fun r => f (a r) (b r)) l.
Proof. induction l as [|x r IH]; simpl; [reflexivity | now rewrite IH]. Qed.

Lemma combine_map {X} (a b : X -> Q) (l : list X) :
  combine (map a l) (map b l) = map (fun r => (a r, b r)) l.
Proof. induction l as [|x r IH]; simpl; [reflexivity | now rewrite IH]. Qed.

Lemma mask_rows_filter (h : list Q -> bool) (rs : list (list Q)) :
  mask_rows (map h rs) rs = filter h rs.
Proof.
  induction rs as [|r rs IH]; simpl; [reflexivity|].
  destruct (h r); now rewrite IH.
Qed.

(** Reading two arrays position by position pairs them up. *)
Lemma zip_by_index (xs ys px py : list Q) :
  length xs = length ys -> length px = length py ->
  mapM (fun i => x <- getitem (px ++ xs) i ;; y <- getitem (py ++ ys) i ;; Ok (x, y))
       (seq (length px) (length xs))
  = Ok (combine xs ys).
Proof.
  revert ys px py.
  induction xs as [|x xs IH]; intros [|y ys] px py Hl Hp; simpl in *;
    try discriminate; [reflexivity|].
  unfold getitem at 1 2.
  rewrite (nth_error_app2 px) by lia. rewrite Nat.sub_diag.
  rewrite (nth_error_app2 py) by lia.
  replace (length px - length py)%nat with 0%nat by lia. simpl.
  replace (px ++ x :: xs) with ((px ++ [x]) ++ xs) by (rewrite <- app_assoc; reflexivity).
  replace (py ++ y :: ys) with ((py ++ [y]) ++ ys) by (rewrite <- app_assoc; reflexivity).
  replace (S (length px)) with (length (px ++ [x])) by (rewrite length_app; simpl; lia).
  rewrite IH.
  - reflexivity.
  - lia.
  - rewrite !length_app. simpl. lia.
Qed.

Lemma combine_nonempty {X Y} (l : list X) (l' : list Y) :
  l <> [] -> (length l <= length l')%nat -> combine l l' <> [].
Proof.
  destruct l as [|x l]; [congruence|]. destruct l' as [|y l']; simpl; [lia|].
  intros _ _. discriminate.
Qed.

Lemma path_Path_ok (vertices : list (Q * Q)) :
  vertices <> [] -> path_Path vertices = Ok vertices.
Proof. destruct vertices; [congruence | reflexivity]. Qed.

Lemma contains_points_ok (p q : list (Q * Q)) :
  q <> [] -> contains_points p q = Ok (map (contains_point p) q).
Proof. destruct q; [congruence | reflexivity]. Qed.

Lemma inpolygon_pointwise (xq yq xv yv : list Q) :
  xq <> [] -> xv <> [] ->
  length xq = length yq -> length xv = length yv ->
  inpolygon xq yq xv yv
  = Ok (map (contains_point (combine xv yv)) (combine xq yq)).
Proof.
  intros Hqne Hvne Hq Hv. unfold inpolygon.
  pose proof (zip_by_index xq yq [] [] Hq eq_refl) as Eq.
  pose proof (zip_by_index xv yv [] [] Hv eq_refl) as Ev.
  simpl in Eq, Ev. rewrite Eq. cbn [bind]. rewrite Ev. cbn [bind].
  rewrite path_Path_ok by (apply combine_nonempty; [assumption | lia]).
  cbn [bind].
  apply contains_points_ok. apply combine_nonempty; [assumption | lia].
Qed.

Lemma map_nonempty {X Y} (f : X -> Y) (l : list X) : l <> [] -> map f l <> [].
Proof. destruct l; [congruence | discriminate]. Qed.

Lemma getcol_index (Data : DataFrame) (name : string) (k : nat) :
  index_of name (columns Data) = Some k ->
  getcol Data name = Ok (map (fun row => nth k row 0) (rows Data)).
Proof. intro H. unfold getcol. rewrite H. reflexivity. Qed.

Lemma first_date_column_none (headings : list string) :
  (forall h, In h headings -> String.prefix "20" h = false) ->
  first_date_column headings = Raise IndexError.
Proof.
  intro H. unfold first_date_column, np_where.
  replace (where_from 0 (map (String.prefix "20") headings)) with (@nil nat).
  - reflexivity.
  - symmetry. apply where_from_nil. intros b Hb.
    apply in_map_iff in Hb. destruct Hb as (h & <- & Hh). auto.
Qed.

Lemma pixel_dist_rows (lat lon : Q) (Data : DataFrame) (klat klon : nat) :
  index_of "Latitude" (columns Data) = Some klat ->
  index_of "Longitude" (columns Data) = Some klon ->
  pixel_dist lat lon Data = Ok (map (record_dist lat lon klat klon) (rows Data)).
Proof.
  intros Hlat Hlon. unfold pixel_dist.
  rewrite (getcol_index _ _ _ Hlat), (getcol_index _ _ _ Hlon). simpl.
  rewrite (zip_with_map (fun a b => np_sqrt (sq (a - lat) + sq (b - lon)))).
  reflexivity.
Qed.

Lemma nearest_pixel_cases (tol : Q) (msg : string) (lat lon : Q) (Data : DataFrame)
  (klat klon : nat) :
  index_of "Latitude" (columns Data) = Some klat ->
  index_of "Longitude" (columns Data) = Some klon ->
  (rows Data = [] /\ nearest_pixel tol msg lat lon Data = Raise ValueError) \/
  (exists i v,
      first_least (map (record_dist lat lon klat klon) (rows Data)) i v /\
      np_min (map (record_dist lat lon klat klon) (rows Data)) = Ok v /\
      nearest_pixel tol msg lat lon Data
      = if Qle_bool tol v then Raise (Exception msg) else Ok i).
Proof.
  intros Hlat Hlon. unfold nearest_pixel.
  rewrite (pixel_dist_rows lat lon Data klat klon Hlat Hlon). simpl.
  destruct (rows Data) as [|r rs] eqn:E.
  - left. split; reflexivity.
  - right.
    destruct (np_argmin_min (map (record_dist lat lon klat klon) (r :: rs)))
      as (i & v & Hi & Hv & Hfl); [discriminate|].
    exists i, v. split; [assumption|]. split; [assumption|].
    rewrite Hi, Hv. reflexivity.
Qed.

(** ** Polygon filtering *)

Lemma filter_none {X} (f : X -> bool) (l : list X) :
  (forall r, In r l -> f r = false) -> filter f l = [].
Proof.
  induction l as [|r rs IH]; simpl; intro H; [reflexivity|].
  rewrite (H r (or_introl eq_refl)). apply IH.
  intros r' Hr'. apply H. right. exact Hr'.
Qed.

(** C8: for a dataset with at least one record and a polygon with at
    least one vertex, [extract_from_polygon] returns the records whose
    (longitude, latitude) pass the point-in-polygon test, in their
    original order ([filter] keeps the order of the rows), with the same
    columns; when no record passes, the result is the empty collection,
    returned normally. *)
Theorem extract_from_polygon_filters
  (Polylon Polylat : list Q) (Data : DataFrame) (klat klon : nat) :
  index_of "Latitude" (columns Data) = Some klat ->
  index_of "Longitude" (columns Data) = Some klon ->
  length Polylon = length Polylat ->
  rows Data <> [] ->
  Polylon <> [] ->
  let inside := fun r : list Q =>
    contains_point (combine Polylon Polylat) (nth klon r 0, nth klat r 0) in
  extract_from_polygon Polylon Polylat Data
  = Ok (mkDataFrame (columns Data) (filter inside (rows Data))) /\
  ((forall r, In r (rows Data) -> inside r = false) ->
   extract_from_polygon Polylon Polylat Data = Ok (mkDataFrame (columns Data) [])).
Proof.
  intros Hlat Hlon Hlen Hrows Hpoly inside.
  assert (E : extract_from_polygon Polylon Polylat Data
              = Ok (mkDataFrame (columns Data) (filter inside (rows Data)))).
  { unfold extract_from_polygon.
    rewrite (getcol_index _ _ _ Hlat), (getcol_index _ _ _ Hlon). cbn [bind].
    rewrite inpolygon_pointwise
      by (try apply map_nonempty; rewrite ?length_map; auto).
    cbn [bind]. rewrite combine_map, map_map, mask_rows_filter. reflexivity. }
  split; [exact E|].
  intro Hout. rewrite E. f_equal. f_equal.
  apply filter_none. exact Hout.
Qed.

(** ** The first-date-column heuristic *)

(** C9, as the code has it: on a dataset with no column label beginning
    with "20", [get_dates] and [get_mean_series] raise IndexError;
    [extract_series_from_latlon] raises IndexError whenever its
    nearest-pixel lookup succeeds, and otherwise fails with the error of
    that lookup, which runs first. *)
Theorem no_date_column_index_error (Data : DataFrame) :
  no_date_column Data ->
  get_dates Data = Raise IndexError /\
  get_mean_series Data = Raise IndexError /\
  (forall lat lon factor index,
      nearest_pixel (1 # 2) no_pixels_half lat lon Data = Ok index ->
      extract_series_from_latlon lat lon Data factor = Raise IndexError) /\
  (forall lat lon factor e,
      nearest_pixel (1 # 2) no_pixels_half lat lon Data = Raise e ->
      extract_series_from_latlon lat lon Data factor = Raise e).
Proof.
  intro H. pose proof (first_date_column_none (columns Data) H) as E.
  repeat split.
  - unfold get_dates. rewrite E. reflexivity.
  - unfold get_mean_series. rewrite E. reflexivity.
  - intros lat lon factor index Hn. unfold extract_series_from_latlon.
    rewrite Hn. simpl. rewrite E. reflexivity.
  - intros lat lon factor e Hn. unfold extract_series_from_latlon.
    rewrite Hn. reflexivity.
Qed.

(** ** Nearest-record extraction *)

Lemma extract_after_lookup (lat lon factor : Q) (Data : DataFrame)
  (index idx : nat) (ds : list Q) :
  nearest_pixel (1 # 2) no_pixels_half lat lon Data = Ok index ->
  first_date_column (columns Data) = Ok idx ->
  parse_dates "%Y%m%d" (skipn idx (columns Data)) = Ok ds ->
  extract_series_from_latlon lat lon Data factor
  = Ok (ds, map (Qmult factor) (iloc_from Data index idx)).
Proof.
  intros Hn Hc Hp. unfold extract_series_from_latlon.
  rewrite Hn. simpl. rewrite Hc. simpl. rewrite Hp. reflexivity.
Qed.

Lemma nth_error_map_inv {X Y} (f : X -> Y) (l : list X) (j : nat) (y : Y) :
  nth_error (map f l) j = Some y ->
  exists x, nth_error l j = Some x /\ y = f x.
Proof.
  rewrite nth_error_map. destruct (nth_error l j) as [x|]; simpl; [|discriminate].
  intro H. injection H as <-. eauto.
Qed.

Lemma first_least_map {X} (f : X -> Q) (l : list X) (i : nat) (r : X) :
  nth_error l i = Some r ->
  (forall r', In r' l -> f r <= f r') ->
  (forall j r', (j < i)%nat -> nth_error l j = Some r' -> f r < f r') ->
  first_least (map f l) i (f r).
Proof.
  intros Hi Hmin Hfirst. repeat split.
  - rewrite nth_error_map, Hi. reflexivity.
  - intros j x Hj. apply nth_error_map_inv in Hj. destruct Hj as (r' & Hr' & ->).
    apply Hmin. eapply nth_error_In. exact Hr'.
  - intros j x Hlt Hj. apply nth_error_map_inv in Hj. destruct Hj as (r' & Hr' & ->).
    eapply Hfirst; eassumption.
Qed.

Lemma sum_sq_zero (a b lat lon : Q) :
  a == lat -> b == lon -> sq (a - lat) + sq (b - lon) == 0.
Proof. intros Ha Hb. unfold sq. rewrite Ha, Hb. ring. Qed.

Lemma sum_sq_nonneg (x y : Q) : 0 <= sq x + sq y.
Proof.
  unfold sq. pose proof (Qsqr_nonneg x). pose proof (Qsqr_nonneg y). lra.
Qed.

(** C2: under a well-formed dataset (latitude and longitude columns, a
    date axis that parses), the extraction raises the "No pixels found"
    exception exactly when the minimum distance is at least 0.5, and fails
    at all exactly when every record is at distance 0.5 or more; otherwise
    it returns the scaled series of the record at minimum distance, the
    first one among ties; and for any tolerance above 0 a query equal to a
    record's coordinates passes the lookup at distance 0. *)
Theorem nearest_record_extraction
  (lat lon factor : Q) (Data : DataFrame) (klat klon idx : nat) (ds : list Q) :
  (forall x, x == 0 -> np_sqrt x == 0) ->
  (forall x, 0 <= x -> 0 <= np_sqrt x) ->
  index_of "Latitude" (columns Data) = Some klat ->
  index_of "Longitude" (columns Data) = Some klon ->
  first_date_column (columns Data) = Ok idx ->
  parse_dates "%Y%m%d" (skipn idx (columns Data)) = Ok ds ->
  let dist := record_dist lat lon klat klon in
  (forall m, np_min (map dist (rows Data)) = Ok m ->
     (1 # 2 <= m <->
      extract_series_from_latlon lat lon Data factor
      = Raise (Exception no_pixels_half))) /\
  ((exists e, extract_series_from_latlon lat lon Data factor = Raise e) <->
   (forall r, In r (rows Data) -> 1 # 2 <= dist r)) /\
  (forall i r,
      nth_error (rows Data) i = Some r ->
      dist r < 1 # 2 ->
      (forall r', In r' (rows Data) -> dist r <= dist r') ->
      (forall j r', (j < i)%nat -> nth_error (rows Data) j = Some r' ->
                    dist r < dist r') ->
      extract_series_from_latlon lat lon Data factor
      = Ok (ds, map (Qmult factor) (skipn idx r))) /\
  (forall tol msg i r,
      0 < tol ->
      nth_error (rows Data) i = Some r ->
      nth klat r 0 == lat -> nth klon r 0 == lon ->
      exists k r',
        nearest_pixel tol msg lat lon Data = Ok k /\ (k <= i)%nat /\
        nth_error (rows Data) k = Some r' /\ dist r' == 0).
Proof.
  intros Hz Hpos Hlat Hlon Hc Hp dist.
  assert (Hfail : forall i v,
            first_least (map dist (rows Data)) i v ->
            nearest_pixel (1 # 2) no_pixels_half lat lon Data
            = (if Qle_bool (1 # 2) v then Raise (Exception no_pixels_half) else Ok i) ->
            (1 # 2 <= v ->
             extract_series_from_latlon lat lon Data factor
             = Raise (Exception no_pixels_half)) /\
            (v < 1 # 2 ->
             extract_series_from_latlon lat lon Data factor
             = Ok (ds, map (Qmult factor) (iloc_from Data i idx)))).
  { intros i v Hfl Hn. split; intro Hv.
    - apply Qle_bool_iff in Hv. rewrite Hv in Hn.
      unfold extract_series_from_latlon. rewrite Hn. reflexivity.
    - destruct (Qle_bool (1 # 2) v) eqn:E.
      + apply Qle_bool_iff in E. lra.
      + apply extract_after_lookup; assumption. }
  split; [|split; [|split]].
  - intros m Hm.
    destruct (nearest_pixel_cases (1 # 2) no_pixels_half lat lon Data klat klon Hlat Hlon)
      as [[E _]|(i & v & Hfl & Hmin & Hn)].
    + fold dist in Hm. rewrite E in Hm. discriminate.
    + fold dist in Hfl, Hmin. rewrite Hmin in Hm. injection Hm as <-.
      destruct (Hfail i v Hfl Hn) as [Hge Hlt]. split; [exact Hge|].
      intro Hr. destruct (Qlt_le_dec v (1 # 2)) as [Hv|Hv]; [|exact Hv].
      rewrite (Hlt Hv) in Hr. discriminate.
  - destruct (nearest_pixel_cases (1 # 2) no_pixels_half lat lon Data klat klon Hlat Hlon)
      as [[E Hn]|(i & v & Hfl & Hmin & Hn)].
    + split.
      * intros _ r Hr. rewrite E in Hr. destruct Hr.
      * intros _. exists ValueError. unfold extract_series_from_latlon.
        rewrite Hn. reflexivity.
    + fold dist in Hfl. destruct (Hfail i v Hfl Hn) as [Hge Hlt].
      destruct Hfl as (Hi & Hall & _).
      apply nth_error_map_inv in Hi. destruct Hi as (r0 & Hr0 & ->).
      split.
      * intros [e He] r Hr.
        destruct (Qlt_le_dec (dist r0) (1 # 2)) as [Hv|Hv].
        -- rewrite (Hlt Hv) in He. discriminate.
        -- apply In_nth_error in Hr. destruct Hr as [j Hj].
           assert (dist r0 <= dist r); [|lra].
           apply (Hall j). rewrite nth_error_map, Hj. reflexivity.
      * intro Hfar. exists (Exception no_pixels_half). apply Hge.
        apply Hfar. eapply nth_error_In. exact Hr0.
  - intros i r Hi Hnear Hmin Hfirst.
    pose proof (first_least_map dist (rows Data) i r Hi Hmin Hfirst) as Hfl.
    destruct (nearest_pixel_cases (1 # 2) no_pixels_half lat lon Data klat klon Hlat Hlon)
      as [[E _]|(i' & v & Hfl' & _ & Hn)].
    + rewrite E in Hi. destruct i; discriminate.
    + fold dist in Hfl'.
      destruct (first_least_unique _ _ _ _ _ Hfl Hfl') as [<- <-].
      destruct (Hfail i (dist r) Hfl' Hn) as [_ Hlt].
      rewrite (Hlt Hnear). unfold iloc_from.
      rewrite (nth_error_nth _ _ [] Hi). reflexivity.
  - intros tol msg i r Htol Hi Ha Hb.
    destruct (nearest_pixel_cases tol msg lat lon Data klat klon Hlat Hlon)
      as [[E _]|(k & v & Hfl & _ & Hn)].
    + rewrite E in Hi. destruct i; discriminate.
    + fold dist in Hfl. destruct Hfl as (Hk & Hall & Hbefore).
      assert (Hr0 : dist r == 0).
      { unfold dist, record_dist. apply Hz. apply sum_sq_zero; assumption. }
      assert (Hvr : v <= dist r).
      { apply (Hall i). rewrite nth_error_map, Hi. reflexivity. }
      apply nth_error_map_inv in Hk. destruct Hk as (r' & Hr' & ->).
      assert (Hnn : 0 <= dist r').
      { unfold dist, record_dist. apply Hpos. apply sum_sq_nonneg. }
      exists k, r'. repeat split.
      * rewrite Hn. destruct (Qle_bool tol (dist r')) eqn:E; [|reflexivity].
        apply Qle_bool_iff in E. lra.
      * destruct (Nat.le_gt_cases k i) as [Hle|Hgt]; [exact Hle|].
        assert (dist r' < dist r); [|lra].
        apply (Hbefore i); [exact Hgt|]. rewrite nth_error_map, Hi. reflexivity.
      * exact Hr'.
      * lra.
Qed.

(** ** Re-zeroing a series *)

Lemma deref_old (h : heap) (a : list Q) (r : ref) :
  (r < length h)%nat -> deref (h ++ [a]) r = deref h r.
Proof. intro H. unfold deref. apply app_nth1. exact H. Qed.

Lemma deref_new (h : heap) (a : list Q) : deref (h ++ [a]) (length h) = a.
Proof. unfold deref. rewrite app_nth2, Nat.sub_diag by lia. reflexivity. Qed.

(** C7: [rezero_series] allocates a new array equal to the series minus
    its value at the first index whose date is nearest the reference date;
    every array already in the store, the input series among them, is
    unchanged; and when the reference date is the series' first date the
    chosen index is 0 and the first new value is 0. *)
Theorem rezero_series_nearest_date
  (h : heap) (series dates : ref) (zerodate : pyval) (zerodateasfloat : bool) (q : Q) :
  reference_date zerodate zerodateasfloat q ->
  deref h dates <> [] ->
  (length (deref h dates) <= length (deref h series))%nat ->
  exists i a v,
    first_least (map (fun d => Qabs (d - q)) (deref h dates)) i a /\
    nth_error (deref h series) i = Some v /\
    let newdata := map (fun x => x - v) (deref h series) in
    rezero_series series dates zerodate zerodateasfloat h
    = Ok (length h, h ++ [newdata]) /\
    deref (h ++ [newdata]) (length h) = newdata /\
    (forall r, (r < length h)%nat -> deref (h ++ [newdata]) r = deref h r) /\
    (forall t0, nth_error (deref h dates) 0 = Some t0 -> q == t0 ->
       i = 0%nat /\ exists x, nth_error newdata 0 = Some x /\ x == 0).
Proof.
  intros Href Hne Hlen.
  destruct (np_argmin_min (map (fun d => Qabs (d - q)) (deref h dates)))
    as (i & a & Hi & _ & Hfl).
  { destruct (deref h dates); [congruence | discriminate]. }
  assert (Hlt : (i < length (deref h series))%nat).
  { destruct Hfl as (Hn & _). apply nth_error_map_inv in Hn.
    destruct Hn as (d & Hd & _).
    assert (i < length (deref h dates))%nat by (apply nth_error_Some; congruence).
    lia. }
  destruct (getitem_lt (deref h series) i Hlt) as (v & Hg & Hv).
  exists i, a, v. split; [exact Hfl|]. split; [exact Hv|]. cbv zeta.
  split; [|split; [|split]].
  - unfold rezero_series.
    destruct Href as [[-> ->]|(-> & s & -> & Hs)];
      cbn [negb]; [|rewrite Hs]; cbn [of_option bind];
      rewrite Hi; cbn [bind]; rewrite Hg; reflexivity.
  - apply deref_new.
  - intros r Hr. apply deref_old. exact Hr.
  - intros t0 Ht0 Hq.
    destruct Hfl as (Hn & Hall & Hbefore).
    assert (Hi0 : i = 0%nat).
    { destruct i as [|i']; [reflexivity|]. exfalso.
      assert (H0 : nth_error (map (fun d => Qabs (d - q)) (deref h dates)) 0
                   = Some (Qabs (t0 - q)))
        by (rewrite nth_error_map, Ht0; reflexivity).
      pose proof (Hbefore 0%nat _ (Nat.lt_0_succ i') H0) as Hlt0.
      apply nth_error_map_inv in Hn. destruct Hn as (d & _ & ->).
      pose proof (Qabs_nonneg (d - q)) as Hnn.
      assert (Qabs (t0 - q) == 0); [|lra].
      rewrite Hq. setoid_replace (t0 - t0) with 0 by ring. reflexivity. }
    split; [exact Hi0|]. subst i.
    exists (v - v). split; [|ring].
    rewrite nth_error_map, Hv. reflexivity.
Qed.

(** ** Segmenting a line into boxes *)

Lemma np_linspace_length (start stop : Q) (num : Z) (l : list Q) :
  np_linspace start stop num = Ok l -> (0 <= num)%Z /\ length l = Z.to_nat num.
Proof.
  unfold np_linspace. destruct (num <? 0)%Z eqn:E; [discriminate|].
  intro H. injection H as <-. apply Z.ltb_ge in E.
  split; [exact E|]. rewrite length_map, length_seq. reflexivity.
Qed.

Lemma np_linspace_total (start stop : Q) (num : Z) :
  (0 <= num)%Z -> exists l, np_linspace start stop num = Ok l.
Proof.
  intro H. unfold np_linspace.
  destruct (num <? 0)%Z eqn:E; [apply Z.ltb_lt in E; lia|]. eauto.
Qed.

Lemma np_linspace_negative (start stop : Q) (num : Z) :
  (num < 0)%Z -> np_linspace start stop num = Raise ValueError.
Proof.
  intro H. unfold np_linspace. apply Z.ltb_lt in H. rewrite H. reflexivity.
Qed.

Lemma py_div_ok (a b : Q) : ~ b == 0 -> py_div a b = Ok (a / b).
Proof.
  intro H. unfold py_div. destruct (Qeq_bool b 0) eqn:E; [|reflexivity].
  apply Qeq_bool_iff in E. contradiction.
Qed.

Lemma set_row_spec {A} (P : A -> Prop) (i : nat) (v : A) (l : list A) :
  (i < length l)%nat -> P v -> Forall P l ->
  exists l', set_row i v l = Ok l' /\ length l' = length l /\ Forall P l'.
Proof.
  revert i. induction l as [|a r IH]; intros i Hi Hv Hl; simpl in Hi; [lia|].
  inversion Hl as [|? ? Ha Hr]; subst.
  destruct i as [|i']; simpl.
  - exists (v :: r). repeat split. constructor; assumption.
  - destruct (IH i') as (r' & -> & Hlen & Hall); [lia | assumption | assumption |].
    simpl. exists (a :: r'). repeat split.
    + simpl. lia.
    + constructor; assumption.
Qed.

Lemma corner_ring_closed (i : nat) (lats lons : list Q) (unitnorm : Q * Q) (width : Q) :
  (i + 1 < length lats)%nat -> length lats = length lons ->
  exists rect, corner_ring i lats lons unitnorm width = Ok rect /\
               closed_ring (fst rect) /\ closed_ring (snd rect).
Proof.
  intros Hi Hl. unfold corner_ring.
  destruct (getitem_lt lons i) as (a & -> & _); [lia|].
  destruct (getitem_lt lats i) as (b & -> & _); [lia|].
  destruct (getitem_lt lons (i + 1)) as (c & -> & _); [lia|].
  destruct (getitem_lt lats (i + 1)) as (d & -> & _); [lia|].
  cbn [bind]. eexists. split; [reflexivity|].
  split; split; reflexivity.
Qed.

(** The loop of [segment_line_to_boxes] keeps the shape of the two arrays
    and leaves a closed ring in every row. *)
Lemma box_loop_invariant (lats lons : list Q) (unitnorm : Q * Q) (width : Q)
  (idxs : list nat) (B : list (list Q) * list (list Q)) :
  length lats = length lons ->
  (forall i, In i idxs ->
     (i + 1 < length lats)%nat /\ (i < length (fst B))%nat) ->
  length (snd B) = length (fst B) ->
  Forall closed_ring (fst B) -> Forall closed_ring (snd B) ->
  exists B',
    for_each
      (fun i (B : list (list Q) * list (list Q)) =>
         rect <- corner_ring i lats lons unitnorm width ;;
         bx <- set_row i (fst rect) (fst B) ;;
         by_ <- set_row i (snd rect) (snd B) ;;
         Ok (bx, by_)) idxs B = Ok B' /\
    length (fst B') = length (fst B) /\ length (snd B') = length (fst B) /\
    Forall closed_ring (fst B') /\ Forall closed_ring (snd B').
Proof.
  intro Hl. revert B.
  induction idxs as [|i r IH]; intros B Hidx Hlen Hx Hy; cbn [for_each].
  - exists B. auto.
  - destruct (Hidx i (or_introl eq_refl)) as [Hi1 Hi2].
    destruct (corner_ring_closed i lats lons unitnorm width Hi1 Hl)
      as (rect & -> & Hrx & Hry).
    cbn [bind].
    destruct (set_row_spec closed_ring i (fst rect) (fst B) Hi2 Hrx Hx)
      as (bx & -> & Hbxl & Hbx).
    cbn [bind].
    destruct (set_row_spec closed_ring i (snd rect) (snd B)) as (by_ & -> & Hbyl & Hby);
      [lia | assumption | assumption |].
    cbn [bind].
    destruct (IH (bx, by_)) as (B' & HB' & H1 & H2 & H3 & H4); cbn [fst snd];
      try assumption.
    + intros j Hj. destruct (Hidx j (or_intror Hj)). split; lia.
    + lia.
    + exists B'. cbn [fst snd] in *. repeat split; try assumption; lia.
Qed.

Lemma zeros_closed (n : nat) : Forall closed_ring (repeat (repeat 0 5) n).
Proof.
  apply Forall_forall. intros ring H. apply repeat_spec in H. subst.
  split; reflexivity.
Qed.

Lemma geopy_distance_m_ok (a b : Q * Q) :
  valid_latitude (fst a) = true -> valid_latitude (fst b) = true ->
  geopy_distance_m a b = Ok (geodesic_m a b).
Proof. intros Ha Hb. unfold geopy_distance_m. rewrite Ha, Hb. reflexivity. Qed.

Lemma geopy_distance_m_cases (a b : Q * Q) :
  geopy_distance_m a b = Ok (geodesic_m a b) \/
  geopy_distance_m a b = Raise ValueError.
Proof.
  unfold geopy_distance_m.
  destruct (valid_latitude (fst a) && valid_latitude (fst b)); auto.
Qed.

Lemma geopy_distance_m_origin (b : Q * Q) :
  valid_latitude (fst b) = true ->
  geopy_distance_m (0, 0) b = Ok (geodesic_m (0, 0) b).
Proof. intro Hb. apply geopy_distance_m_ok; [reflexivity | exact Hb]. Qed.

(** With latitudes geopy accepts, the segmentation is the computation on
    the two lengths. *)
Lemma segment_line_to_boxes_valid (x0 x1 y0 y1 spacing width : Q) :
  valid_latitude y0 = true -> valid_latitude y1 = true ->
  segment_line_to_boxes x0 x1 y0 y1 spacing width
  = (quot <- py_div (geodesic_m (y0, x0) (y1, x1)) spacing ;;
     lats <- np_linspace y0 y1 (Qfloor quot) ;;
     lons <- np_linspace x0 x1 (Qfloor quot) ;;
     NormLen <- geopy_distance_m (0, 0) (- (y1 - y0), x1 - x0) ;;
     inv <- py_div 1 NormLen ;;
     BOXESX <- np_zeros (Z.of_nat (length lats) - 1) 5 ;;
     boxes <- for_each
                (fun i (B : list (list Q) * list (list Q)) =>
                   rect <- corner_ring i lats lons
                             (inv * - (y1 - y0), inv * (x1 - x0)) width ;;
                   bx <- set_row i (fst rect) (fst B) ;;
                   by_ <- set_row i (snd rect) (snd B) ;;
                   Ok (bx, by_))
                (py_range (Z.of_nat (length lats) - 1)) (BOXESX, BOXESX) ;;
     Ok (fst boxes, snd boxes, lats, lons)).
Proof.
  intros H0 H1. unfold segment_line_to_boxes.
  rewrite (geopy_distance_m_ok (y0, x0) (y1, x1) H0 H1). reflexivity.
Qed.

Lemma segment_line_to_boxes_invalid (x0 x1 y0 y1 spacing width : Q) :
  valid_latitude y0 && valid_latitude y1 = false ->
  segment_line_to_boxes x0 x1 y0 y1 spacing width = Raise ValueError.
Proof.
  intro H. unfold segment_line_to_boxes, geopy_distance_m. cbn [fst].
  rewrite H. reflexivity.
Qed.

(** X1: from one sample point on, and with latitudes geopy accepts (the
    two end points and the normal's first component, which the source
    passes as a latitude), the segmentation succeeds: for
    [n = floor(Len/spacing) >= 1] it returns [n - 1] boxes (none for
    [n = 1]) and [n] sample points, each box a closed five-point ring. *)
Lemma segment_line_to_boxes_count (x0 x1 y0 y1 spacing width : Q) :
  valid_latitude y0 = true -> valid_latitude y1 = true ->
  valid_latitude (- (y1 - y0)) = true ->
  ~ spacing == 0 ->
  ~ geodesic_m (0, 0) (- (y1 - y0), x1 - x0) == 0 ->
  let n := Qfloor (geodesic_m (y0, x0) (y1, x1) / spacing) in
  (1 <= n)%Z ->
  exists BOXESX BOXESY lats lons,
    segment_line_to_boxes x0 x1 y0 y1 spacing width
    = Ok (BOXESX, BOXESY, lats, lons) /\
    length BOXESX = Z.to_nat (n - 1) /\ length BOXESY = Z.to_nat (n - 1) /\
    length lats = Z.to_nat n /\ length lons = Z.to_nat n /\
    Forall closed_ring BOXESX /\ Forall closed_ring BOXESY.
Proof.
  intros V0 V1 Vn Hs Hn n Hge. rewrite (segment_line_to_boxes_valid _ _ _ _ _ _ V0 V1).
  rewrite (py_div_ok _ _ Hs). cbn [bind]. fold n.
  destruct (np_linspace_total y0 y1 n) as (lats & Hlats); [lia|].
  destruct (np_linspace_total x0 x1 n) as (lons & Hlons); [lia|].
  rewrite Hlats. cbn [bind]. rewrite Hlons. cbn [bind].
  rewrite (geopy_distance_m_origin (- (y1 - y0), x1 - x0) Vn). cbn [bind].
  rewrite (py_div_ok _ _ Hn). cbn [bind].
  apply np_linspace_length in Hlats, Hlons.
  destruct Hlats as [_ Hlats]. destruct Hlons as [_ Hlons].
  unfold np_zeros.
  destruct (Z.of_nat (length lats) - 1 <? 0)%Z eqn:E.
  { apply Z.ltb_lt in E. lia. }
  cbn [bind].
  match goal with
  | |- context [for_each ?body ?idxs ?B] =>
      destruct (box_loop_invariant lats lons
                  (1 / geodesic_m (0, 0) (- (y1 - y0), x1 - x0) * - (y1 - y0),
                   1 / geodesic_m (0, 0) (- (y1 - y0), x1 - x0) * (x1 - x0))
                  width idxs B)
        as (B' & HB' & H1 & H2 & H3 & H4)
  end.
  - lia.
  - intros i Hi. unfold py_range in Hi. apply in_seq in Hi.
    cbn [fst]. rewrite repeat_length. lia.
  - reflexivity.
  - apply zeros_closed.
  - apply zeros_closed.
  - rewrite HB'. cbn [bind].
    exists (fst B'), (snd B'), lats, lons.
    cbn [fst snd] in H1, H2. rewrite repeat_length in H1, H2.
    repeat split; try assumption; lia.
Qed.

(** C1, where the code departs from it: a transect shorter than the
    spacing has [floor(Len/spacing) = 0] sample points, [np.zeros] is then
    asked for [-1] rows, and the call raises ValueError instead of
    returning an empty box sequence. *)
Theorem segment_line_to_boxes_no_points (x0 x1 y0 y1 spacing width : Q) :
  ~ spacing == 0 ->
  ~ geodesic_m (0, 0) (- (y1 - y0), x1 - x0) == 0 ->
  Qfloor (geodesic_m (y0, x0) (y1, x1) / spacing) = 0%Z ->
  segment_line_to_boxes x0 x1 y0 y1 spacing width = Raise ValueError.
Proof.
  intros Hs Hn H0.
  destruct (valid_latitude y0 && valid_latitude y1) eqn:V;
    [|apply segment_line_to_boxes_invalid; exact V].
  apply andb_prop in V. destruct V as [V0 V1].
  rewrite (segment_line_to_boxes_valid _ _ _ _ _ _ V0 V1).
  rewrite (py_div_ok _ _ Hs). cbn [bind]. rewrite H0.
  destruct (geopy_distance_m_cases (0, 0) (- (y1 - y0), x1 - x0)) as [E|E];
    rewrite E; [|reflexivity].
  cbn [bind np_linspace Z.ltb Z.compare]. rewrite (py_div_ok _ _ Hn). reflexivity.
Qed.

(** A negative spacing is refused by [np.linspace]. *)
Lemma segment_line_to_boxes_negative (x0 x1 y0 y1 spacing width : Q) :
  ~ spacing == 0 ->
  (Qfloor (geodesic_m (y0, x0) (y1, x1) / spacing) < 0)%Z ->
  segment_line_to_boxes x0 x1 y0 y1 spacing width = Raise ValueError.
Proof.
  intros Hs Hneg.
  destruct (valid_latitude y0 && valid_latitude y1) eqn:V;
    [|apply segment_line_to_boxes_invalid; exact V].
  apply andb_prop in V. destruct V as [V0 V1].
  rewrite (segment_line_to_boxes_valid _ _ _ _ _ _ V0 V1).
  rewrite (py_div_ok _ _ Hs). cbn [bind].
  rewrite (np_linspace_negative _ _ _ Hneg). reflexivity.
Qed.

(** ** Fitting a straight line *)

Lemma np_divide_fin (a b : Q) : ~ b == 0 -> np_divide a b = Fin (a / b).
Proof.
  intro H. unfold np_divide. destruct (Qeq_bool b 0) eqn:E; [|reflexivity].
  apply Qeq_bool_iff in E. contradiction.
Qed.

Lemma np_divide_nonfin (a b : Q) : b == 0 -> np_divide a b = NonFin.
Proof.
  intro H. unfold np_divide. apply Qeq_bool_iff in H. rewrite H. reflexivity.
Qed.

Lemma max_from_spec (l : list Q) (bv : Q) :
  (max_from bv l = bv \/ In (max_from bv l) l) /\
  bv <= max_from bv l /\
  (forall x, In x l -> x <= max_from bv l).
Proof.
  revert bv. induction l as [|y r IH]; intro bv; simpl.
  - repeat split; [left; reflexivity | lra | intros x []].
  - destruct (Qltb bv y) eqn:E.
    + apply Qltb_lt in E. destruct (IH y) as (Hin & Hle & Hall).
      repeat split.
      * right. destruct Hin as [->|Hin]; [left; reflexivity | right; exact Hin].
      * lra.
      * intros x [<-|Hx]; [exact Hle | apply Hall; exact Hx].
    + apply Qltb_ge in E. destruct (IH bv) as (Hin & Hle & Hall).
      repeat split.
      * destruct Hin as [->|Hin]; [left; reflexivity | right; right; exact Hin].
      * exact Hle.
      * intros x [<-|Hx]; [lra | apply Hall; exact Hx].
Qed.

Lemma np_max_is_max (l : list Q) :
  l <> [] -> exists m, np_max l = Ok m /\ is_max l m.
Proof.
  destruct l as [|x r]; [congruence|]. intros _.
  exists (max_from x r). split; [reflexivity|].
  destruct (max_from_spec r x) as (Hin & Hle & Hall). split.
  - destruct Hin as [->|Hin]; [left; reflexivity | right; exact Hin].
  - intros y [<-|Hy]; [exact Hle | apply Hall; exact Hy].
Qed.

Lemma np_min_is_min (l : list Q) :
  l <> [] -> exists m, np_min l = Ok m /\ is_min l m.
Proof.
  intro H. destruct (np_argmin_min l H) as (i & v & _ & Hv & Hn & Hall & _).
  exists v. split; [exact Hv|]. split.
  - eapply nth_error_In. exact Hn.
  - intros x Hx. apply In_nth_error in Hx. destruct Hx as [j Hj].
    exact (Hall j x Hj).
Qed.

Lemma is_max_unique (l : list Q) (a b : Q) : is_max l a -> is_max l b -> a == b.
Proof.
  intros [Ha Ha'] [Hb Hb']. specialize (Ha' b Hb). specialize (Hb' a Ha). lra.
Qed.

Lemma is_min_unique (l : list Q) (a b : Q) : is_min l a -> is_min l b -> a == b.
Proof.
  intros [Ha Ha'] [Hb Hb']. specialize (Ha' b Hb). specialize (Hb' a Ha). lra.
Qed.

Lemma getlast_ok {A} (l : list A) (a : A) :
  nth_error l (length l - 1) = Some a -> getlast l = Ok a.
Proof. intro H. unfold getlast. rewrite H. reflexivity. Qed.

Lemma guess_slope_eval (Series t : list Q) (t_first t_last : Q) :
  Series <> [] ->
  nth_error t 0 = Some t_first ->
  nth_error t (length t - 1) = Some t_last ->
  exists mx mn, is_max Series mx /\ is_min Series mn /\
    guess_slope Series t = Ok (np_divide (mx - mn) (t_last - t_first)).
Proof.
  intros Hne H0 Hl.
  destruct (np_max_is_max Series Hne) as (mx & Emx & Hmx).
  destruct (np_min_is_min Series Hne) as (mn & Emn & Hmn).
  exists mx, mn. split; [exact Hmx|]. split; [exact Hmn|].
  unfold guess_slope. rewrite Emx, Emn. cbn [bind].
  rewrite (getlast_ok _ _ Hl). cbn [bind].
  apply getitem_ok in H0. rewrite H0. reflexivity.
Qed.

(** C10: the slope guess divides by [t[-1] - t[0]] unguarded: when the
    first and last dates coincide (as in any one-point series) the guess is
    not a finite number, and it is one as soon as they differ. *)
Theorem guess_slope_zero_span (Series t : list Q) (t_first t_last : Q) :
  Series <> [] ->
  nth_error t 0 = Some t_first ->
  nth_error t (length t - 1) = Some t_last ->
  (t_last == t_first -> guess_slope Series t = Ok NonFin) /\
  (length t = 1%nat -> guess_slope Series t = Ok NonFin) /\
  (~ t_last == t_first ->
   exists mx mn, is_max Series mx /\ is_min Series mn /\
     guess_slope Series t = Ok (Fin ((mx - mn) / (t_last - t_first)))) /\
  (t_last == t_first ->
   forall v0 e, nth_error Series 0 = Some v0 ->
     leastsq (line_residuals t Series) (NonFin, Fin v0) = Raise e ->
     fit_straight_line_to_series Series t = Raise e).
Proof.
  intros Hne H0 Hl.
  destruct (guess_slope_eval Series t t_first t_last Hne H0 Hl)
    as (mx & mn & Hmx & Hmn & E).
  split; [|split; [|split]]; try rewrite E.
  4: { intros Heq v0 e Hv0 Hsolve. unfold fit_straight_line_to_series.
       apply getitem_ok in Hv0. rewrite Hv0. cbn [bind]. rewrite E. cbn [bind].
       rewrite np_divide_nonfin by lra. rewrite Hsolve. reflexivity. }
  - intro Heq. rewrite np_divide_nonfin; [reflexivity|]. lra.
  - intro H1. rewrite H1 in Hl. change (1 - 1)%nat with 0%nat in Hl.
    rewrite np_divide_nonfin; [reflexivity|].
    assert (t_last = t_first) by congruence. subst. ring.
  - intro Hneq. exists mx, mn. split; [exact Hmx|]. split; [exact Hmn|].
    rewrite np_divide_fin; [reflexivity|]. intro Hz. apply Hneq. lra.
Qed.

Lemma fold_left_Qplus (l : list Q) (a : Q) :
  fold_left Qplus l a == a + fold_right Qplus 0 l.
Proof.
  revert a. induction l as [|x r IH]; intro a; simpl.
  - ring.
  - rewrite IH. ring.
Qed.

Lemma np_binop_same_length (f : Q -> Q -> Q) (a b : list Q) :
  length a = length b -> np_binop f a b = Ok (zip_with f a b).
Proof.
  intro H. unfold np_binop. rewrite H, Nat.eqb_refl. reflexivity.
Qed.

Lemma residual_terms (k : Q -> Q) (fit : Q -> Q) (S D : list Q) :
  map k (zip_with Qminus (map sq S) (map sq (map fit D)))
  = map (fun p => k (snd p ^ 2 - fit (fst p) ^ 2)) (combine D S).
Proof.
  revert D. induction S as [|v S IH]; intros [|t D]; simpl; try reflexivity.
  rewrite IH. reflexivity.
Qed.

Lemma len_nonzero (l : list Q) : l <> [] -> ~ len l == 0.
Proof.
  destruct l as [|x r]; [congruence|]. intros _ H. unfold len in H.
  simpl length in H. unfold Qeq in H. simpl in H. lia.
Qed.

(** C3: the solver is started from intercept [Series[0]] and slope
    [(max - min) / (t_last - t_first)]; on its estimates the reported
    misfit is the mean over all points of [sqrt(|value^2 - fitted^2|)],
    and a failure of the solver is the failure of the fit. *)
Theorem line_fit_guess_and_misfit (Series dates : list Q) (v0 t0 tl : Q) :
  nth_error Series 0 = Some v0 ->
  nth_error dates 0 = Some t0 ->
  nth_error dates (length dates - 1) = Some tl ->
  ~ tl == t0 ->
  length dates = length Series ->
  exists slope0,
    (forall mx mn, is_max Series mx -> is_min Series mn ->
                   slope0 == (mx - mn) / (tl - t0)) /\
    (forall e,
        leastsq (line_residuals dates Series) (Fin slope0, Fin v0) = Raise e ->
        fit_straight_line_to_series Series dates = Raise e) /\
    (forall est_slope est_intercept,
        leastsq (line_residuals dates Series) (Fin slope0, Fin v0)
        = Ok (Fin est_slope, Fin est_intercept) ->
        exists misfit,
          fit_straight_line_to_series Series dates
          = Ok (Fin misfit, Fin est_slope, Fin est_intercept) /\
          misfit == misfit_spec est_slope est_intercept t0 (combine dates Series)).
Proof.
  intros Hv0 Ht0 Htl Hspan Hlen.
  assert (Hne : Series <> []) by (destruct Series; [discriminate | congruence]).
  assert (Hdne : dates <> []) by (destruct dates; [discriminate | congruence]).
  destruct (guess_slope_eval Series dates t0 tl Hne Ht0 Htl)
    as (mx & mn & Hmx & Hmn & Hg).
  rewrite np_divide_fin in Hg by (intro Hz; apply Hspan; lra).
  exists ((mx - mn) / (tl - t0)).
  pose proof Hv0 as Gv0. apply getitem_ok in Gv0.
  pose proof Ht0 as Gt0. apply getitem_ok in Gt0.
  split; [|split].
  - intros mx' mn' Hmx' Hmn'.
    rewrite (is_max_unique _ _ _ Hmx Hmx'), (is_min_unique _ _ _ Hmn Hmn').
    reflexivity.
  - intros e He. unfold fit_straight_line_to_series.
    rewrite Gv0. cbn [bind]. rewrite Hg. cbn [bind]. rewrite He. reflexivity.
  - intros a b Hest. unfold fit_straight_line_to_series.
    rewrite Gv0. cbn [bind]. rewrite Hg. cbn [bind]. rewrite Hest.
    cbn [bind fst snd]. rewrite Gt0. cbn [bind].
    rewrite np_binop_same_length by (rewrite !length_map; lia).
    cbn [bind]. rewrite np_divide_fin by (apply len_nonzero; exact Hdne).
    eexists. split; [reflexivity|].
    rewrite (residual_terms (fun e => np_sqrt (Qabs e)) (fun ti => a * (ti - t0) + b)).
    unfold misfit_spec, mean_spec, np_sum, len, fitted_line.
    rewrite fold_left_Qplus, length_map, length_combine, <- Hlen, Nat.min_id.
    rewrite Qplus_0_l. reflexivity.
Qed.

(** ** Fitting a sinusoid *)

Lemma np_diff_nth (l : list Q) (i : nat) :
  nth_error (np_diff l) i
  = match nth_error l i, nth_error l (S i) with
    | Some a, Some b => Some (b - a)
    | _, _ => None
    end.
Proof.
  revert i. induction l as [|a r IH]; intro i.
  - destruct i; reflexivity.
  - destruct r as [|b r'].
    + destruct i as [|[|i]]; reflexivity.
    + destruct i as [|i'].
      * reflexivity.
      * change (np_diff (a :: b :: r')) with ((b - a) :: np_diff (b :: r')).
        cbn [nth_error]. apply IH.
Qed.

Lemma where_from_first (mask : list bool) (i k : nat) :
  nth_error mask k = Some true ->
  (forall j, (j < k)%nat -> nth_error mask j = Some false) ->
  exists rest, where_from i mask = (i + k)%nat :: rest.
Proof.
  revert i k. induction mask as [|b r IH]; intros i k Hk Hbefore.
  - destruct k; discriminate.
  - destruct k as [|k'].
    + simpl in Hk. injection Hk as ->. simpl. rewrite Nat.add_0_r. eauto.
    + pose proof (Hbefore 0%nat (Nat.lt_0_succ k')) as H0. simpl in H0.
      injection H0 as ->. simpl.
      destruct (IH (S i) k') as (rest & ->).
      * exact Hk.
      * intros j Hj. apply (Hbefore (S j)). lia.
      * exists rest. f_equal. lia.
Qed.


Lemma first_downturn_some (Series : list Q) (i : nat) :
  first_downturn_at Series i -> first_downturn Series = Ok i.
Proof.
  intros [(a & b & Ha & Hb & Hle) Hbefore].
  unfold first_downturn, np_where.
  destruct (where_from_first (map (fun d => Qle_bool d 0) (np_diff Series)) 0 i)
    as (rest & ->); [| |reflexivity].
  - rewrite nth_error_map, np_diff_nth, Ha, Hb. simpl.
    apply Qle_bool_iff in Hle. rewrite Hle. reflexivity.
  - intros j Hj. rewrite nth_error_map, np_diff_nth.
    assert (Hi : (S i < length Series)%nat) by (apply nth_error_Some; congruence).
    destruct (nth_error Series j) as [c|] eqn:Ec;
      [|apply nth_error_None in Ec; lia].
    destruct (nth_error Series (S j)) as [d|] eqn:Ed;
      [|apply nth_error_None in Ed; lia].
    simpl. destruct (Qle_bool (d - c) 0) eqn:E; [|reflexivity].
    exfalso. apply (Hbefore j Hj). exists c, d. apply Qle_bool_iff in E. auto.
Qed.


Lemma sinusoid_residual_terms (fit : Q -> Q) (D S : list Q) :
  map sq (zip_with Qminus (map fit D) S)
  = map (fun p => (fit (fst p) - snd p) ^ 2) (combine D S).
Proof.
  revert S. induction D as [|t D IH]; intros [|v S]; simpl; try reflexivity.
  rewrite IH. reflexivity.
Qed.

(** C5: with a solver that keeps its result inside the bounds it is given
    and reports the objective at that result, every successful fit has
    amplitude in [0,30], period in [0,400], phase in [-20,400] and mean in
    [0,100]; its misfit is the objective at the estimates divided by the
    length of the date axis, which is the series length when the two
    agree; and that objective is the L2 norm of the differences between
    the sinusoid [amp * sin(2 pi (t - t0 - phase) / period) + mean] and the
    values: the square root of the sum of their squares (not a finite
    number when the period is 0). *)
Theorem sinusoid_fit_within_bounds
  (Series dates : list Q) (misfit : npfloat) (amp period phase mean : Q) :
  (forall f g b r, minimize f g b = Ok r -> in_bounds b (sln_x r)) ->
  (forall f g b r, minimize f g b = Ok r -> f (sln_x r) = Ok (sln_fun r)) ->
  fit_sinusoid_to_series Series dates = Ok (misfit, amp, period, phase, mean) ->
  (0 <= amp /\ amp <= 30) /\ (0 <= period /\ period <= 400) /\
  (-20 <= phase /\ phase <= 400) /\ (0 <= mean /\ mean <= 100) /\
  exists objective t0,
    nth_error dates 0 = Some t0 /\
    optimize_func dates Series (amp, period, phase, mean) = Ok objective /\
    misfit = npf_divide objective (len dates) /\
    (length dates = length Series ->
     misfit = npf_divide objective (len Series) /\
     (period == 0 -> objective = NonFin) /\
     (~ period == 0 ->
      exists ss,
        objective = Fin (np_sqrt ss) /\
        ss == sum_sq_residuals_spec amp period phase mean t0 (combine dates Series) /\
        misfit = Fin (np_sqrt ss / len Series))).
Proof.
  intros Hb Hf Hfit. unfold fit_sinusoid_to_series in Hfit.
  apply bind_ok in Hfit. destruct Hfit as (gp & Hgp & Hfit).
  apply bind_ok in Hfit. destruct Hfit as (mx & _ & Hfit).
  apply bind_ok in Hfit. destruct Hfit as (mn & _ & Hfit).
  apply bind_ok in Hfit. destruct Hfit as (sln & Hs & Hfit).
  pose proof (Hb _ _ _ _ Hs) as Hin. pose proof (Hf _ _ _ _ Hs) as Hobj.
  destruct (sln_x sln) as [[[a p] ph] m].
  injection Hfit as <- <- <- <- <-.
  unfold in_bounds, bnds, within in Hin. cbn [fst snd] in Hin.
  destruct Hin as ([Ha Ha'] & [Hp Hp'] & [Hph Hph'] & [Hm Hm']).
  unfold guess_phase in Hgp.
  apply bind_ok in Hgp. destruct Hgp as (i & _ & Hgp).
  apply bind_ok in Hgp. destruct Hgp as (ti & _ & Hgp).
  apply bind_ok in Hgp. destruct Hgp as (t0 & Ht0 & _).
  assert (Hdne : dates <> []).
  { apply getitem_ok in Ht0. destruct dates; discriminate. }
  repeat split; try assumption.
  exists (sln_fun sln), t0.
  split; [apply getitem_ok; exact Ht0|]. split; [exact Hobj|].
  split; [reflexivity|]. intro Hl.
  split; [unfold len; rewrite Hl; reflexivity|].
  unfold optimize_func in Hobj. rewrite Ht0 in Hobj. cbn [bind] in Hobj.
  rewrite np_binop_same_length in Hobj by (rewrite length_map; exact Hl).
  cbn [bind] in Hobj.
  split.
  - intro Hz. apply Qeq_bool_iff in Hz. rewrite Hz in Hobj. congruence.
  - intro Hnz. destruct (Qeq_bool p 0) eqn:E;
      [exfalso; apply Hnz; apply Qeq_bool_iff; exact E|].
    injection Hobj as Hobj. rewrite <- Hobj. eexists. split; [reflexivity|].
    split.
    + unfold np_sum. rewrite fold_left_Qplus, Qplus_0_l.
      rewrite sinusoid_residual_terms. reflexivity.
    + cbn [npf_divide]. rewrite np_divide_fin.
      * unfold len. rewrite Hl. reflexivity.
      * apply len_nonzero. exact Hdne.
Qed.

(** ** More on the boxes of a segmented line *)

Lemma set_row_app {A} (pre rest : list A) (z v : A) :
  set_row (length pre) v (pre ++ z :: rest) = Ok (pre ++ v :: rest).
Proof.
  induction pre as [|a pre IH]; simpl; [reflexivity|].
  rewrite IH. reflexivity.
Qed.

Lemma getitem_nth (l : list Q) (i : nat) :
  (i < length l)%nat -> getitem l i = Ok (nth i l 0).
Proof.
  intro H. unfold getitem. rewrite (nth_error_nth' l 0 H). reflexivity.
Qed.

Lemma corner_ring_ring_at (i : nat) (lats lons : list Q) (unitnorm : Q * Q) (width : Q) :
  (i + 1 < length lats)%nat -> length lats = length lons ->
  corner_ring i lats lons unitnorm width = Ok (ring_at lats lons unitnorm width i).
Proof.
  intros Hi Hl. unfold corner_ring.
  rewrite (getitem_nth lons i) by lia. cbn [bind].
  rewrite (getitem_nth lats i) by lia. cbn [bind].
  rewrite (getitem_nth lons (i + 1)) by lia. cbn [bind].
  rewrite (getitem_nth lats (i + 1)) by lia. reflexivity.
Qed.

(** Run from row [k] on, the loop fills the remaining [d] rows with their
    rings. *)
Lemma box_loop_fill (lats lons : list Q) (unitnorm : Q * Q) (width : Q)
  (z : list Q) (d k : nat) :
  length lats = length lons ->
  (k + d < length lats)%nat ->
  for_each
    (fun i (B : list (list Q) * list (list Q)) =>
       rect <- corner_ring i lats lons unitnorm width ;;
       bx <- set_row i (fst rect) (fst B) ;;
       by_ <- set_row i (snd rect) (snd B) ;;
       Ok (bx, by_))
    (seq k d)
    (map (fun i => fst (ring_at lats lons unitnorm width i)) (seq 0 k) ++ repeat z d,
     map (fun i => snd (ring_at lats lons unitnorm width i)) (seq 0 k) ++ repeat z d)
  = Ok (map (fun i => fst (ring_at lats lons unitnorm width i)) (seq 0 (k + d)),
        map (fun i => snd (ring_at lats lons unitnorm width i)) (seq 0 (k + d))).
Proof.
  intro Hl. revert k. induction d as [|d IH]; intros k Hk.
  - simpl. rewrite !app_nil_r, Nat.add_0_r. reflexivity.
  - cbn [seq for_each repeat].
    rewrite corner_ring_ring_at by (assumption || lia). cbn [bind fst snd].
    replace k with (length (map (fun i => fst (ring_at lats lons unitnorm width i)) (seq 0 k)))
      at 1 by (rewrite length_map, length_seq; reflexivity).
    rewrite set_row_app. cbn [bind].
    replace k with (length (map (fun i => snd (ring_at lats lons unitnorm width i)) (seq 0 k)))
      at 1 by (rewrite length_map, length_seq; reflexivity).
    rewrite set_row_app. cbn [bind].
    replace (k + S d)%nat with (S k + d)%nat by lia.
    rewrite <- (IH (S k)) by lia.
    rewrite !seq_S, !map_app. cbn [map Nat.add].
    rewrite <- !app_assoc. reflexivity.
Qed.

Lemma segment_line_to_boxes_ok_inv (x0 x1 y0 y1 spacing width : Q)
  (res : list (list Q) * list (list Q) * list Q * list Q) :
  segment_line_to_boxes x0 x1 y0 y1 spacing width = Ok res ->
  valid_latitude y0 = true /\ valid_latitude y1 = true /\
  valid_latitude (- (y1 - y0)) = true /\
  ~ spacing == 0 /\ ~ geodesic_m (0, 0) (- (y1 - y0), x1 - x0) == 0 /\
  (1 <= Qfloor (geodesic_m (y0, x0) (y1, x1) / spacing))%Z.
Proof.
  intro H.
  destruct (valid_latitude y0 && valid_latitude y1) eqn:V.
  2: { rewrite (segment_line_to_boxes_invalid _ _ _ _ _ _ V) in H. discriminate. }
  apply andb_prop in V. destruct V as [V0 V1].
  rewrite (segment_line_to_boxes_valid _ _ _ _ _ _ V0 V1) in H.
  unfold py_div at 1 in H.
  destruct (Qeq_bool spacing 0) eqn:Es; [discriminate|].
  cbn [bind] in H.
  apply bind_ok in H. destruct H as (lats & Hlats & H).
  apply bind_ok in H. destruct H as (lons & Hlons & H).
  apply bind_ok in H. destruct H as (NormLen & HN & H).
  unfold geopy_distance_m in HN. cbn [fst] in HN.
  destruct (valid_latitude (- (y1 - y0))) eqn:Vn;
    [|rewrite andb_false_r in HN; discriminate].
  rewrite andb_true_r in HN. cbn in HN. injection HN as <-.
  unfold py_div in H.
  destruct (Qeq_bool (geodesic_m (0, 0) (- (y1 - y0), x1 - x0)) 0) eqn:En; [discriminate|].
  cbn [bind] in H.
  apply bind_ok in H. destruct H as (B & HB & _).
  unfold np_zeros in HB.
  destruct (Z.of_nat (length lats) - 1 <? 0)%Z eqn:E; [discriminate|].
  apply Z.ltb_ge in E. apply np_linspace_length in Hlats. destruct Hlats as [H0 Hlen].
  split; [exact V0|]. split; [exact V1|]. split; [reflexivity|].
  split; [|split].
  - intro Hq. apply Qeq_bool_iff in Hq. congruence.
  - intro Hq. apply Qeq_bool_iff in Hq. congruence.
  - lia.
Qed.

(** From one sample point on, the two arrays are the rings of the boxes,
    in order. *)
Lemma segment_line_to_boxes_value (x0 x1 y0 y1 spacing width : Q) :
  valid_latitude y0 = true -> valid_latitude y1 = true ->
  valid_latitude (- (y1 - y0)) = true ->
  ~ spacing == 0 ->
  ~ geodesic_m (0, 0) (- (y1 - y0), x1 - x0) == 0 ->
  let n := Qfloor (geodesic_m (y0, x0) (y1, x1) / spacing) in
  (1 <= n)%Z ->
  exists lats lons,
    np_linspace y0 y1 n = Ok lats /\ np_linspace x0 x1 n = Ok lons /\
    length lats = Z.to_nat n /\ length lons = Z.to_nat n /\
    segment_line_to_boxes x0 x1 y0 y1 spacing width
    = Ok (map (fun i => fst (ring_at lats lons (unit_normal x0 x1 y0 y1) width i))
              (seq 0 (Z.to_nat n - 1)),
          map (fun i => snd (ring_at lats lons (unit_normal x0 x1 y0 y1) width i))
              (seq 0 (Z.to_nat n - 1)),
          lats, lons).
Proof.
  intros V0 V1 Vn Hs Hn n Hge.
  rewrite (segment_line_to_boxes_valid _ _ _ _ _ _ V0 V1).
  rewrite (py_div_ok _ _ Hs). cbn [bind]. fold n.
  destruct (np_linspace_total y0 y1 n) as (lats & Hlats); [lia|].
  destruct (np_linspace_total x0 x1 n) as (lons & Hlons); [lia|].
  exists lats, lons. split; [exact Hlats|]. split; [exact Hlons|].
  rewrite Hlats. cbn [bind]. rewrite Hlons. cbn [bind].
  rewrite (geopy_distance_m_origin (- (y1 - y0), x1 - x0) Vn). cbn [bind].
  rewrite (py_div_ok _ _ Hn). cbn [bind].
  apply np_linspace_length in Hlats, Hlons.
  destruct Hlats as [_ Hlats]. destruct Hlons as [_ Hlons].
  split; [exact Hlats|]. split; [exact Hlons|].
  unfold np_zeros.
  destruct (Z.of_nat (length lats) - 1 <? 0)%Z eqn:E.
  { apply Z.ltb_lt in E. lia. }
  cbn [bind]. unfold py_range.
  replace (Z.to_nat (Z.of_nat (length lats) - 1)) with (Z.to_nat n - 1)%nat by lia.
  pose proof (box_loop_fill lats lons (unit_normal x0 x1 y0 y1) width
                (repeat 0 5) (Z.to_nat n - 1) 0) as Hfill.
  cbn [seq map app Nat.add] in Hfill. unfold unit_normal in Hfill at 1 2.
  rewrite Hfill by lia. reflexivity.
Qed.

Lemma nth_error_map_seq {X} (f : nat -> X) (m i : nat) (x : X) :
  nth_error (map f (seq 0 m)) i = Some x -> (i < m)%nat /\ x = f i.
Proof.
  intro H. apply nth_error_map_inv in H. destruct H as (j & Hj & ->).
  assert (Hi : (i < length (seq 0 m))%nat) by (apply nth_error_Some; congruence).
  rewrite length_seq in Hi. rewrite nth_error_seq in Hj.
  destruct (i <? m)%nat eqn:E.
  - injection Hj as <-. split; [exact Hi | reflexivity].
  - apply Nat.ltb_ge in E. lia.
Qed.

Lemma segment_line_to_boxes_rings (x0 x1 y0 y1 spacing width : Q)
  (BOXESX BOXESY : list (list Q)) (lats lons : list Q) :
  segment_line_to_boxes x0 x1 y0 y1 spacing width = Ok (BOXESX, BOXESY, lats, lons) ->
  (1 <= length lats)%nat /\ length lons = length lats /\
  np_linspace y0 y1 (Qfloor (geodesic_m (y0, x0) (y1, x1) / spacing)) = Ok lats /\
  np_linspace x0 x1 (Qfloor (geodesic_m (y0, x0) (y1, x1) / spacing)) = Ok lons /\
  BOXESX = map (fun i => fst (ring_at lats lons (unit_normal x0 x1 y0 y1) width i))
               (seq 0 (length lats - 1)) /\
  BOXESY = map (fun i => snd (ring_at lats lons (unit_normal x0 x1 y0 y1) width i))
               (seq 0 (length lats - 1)).
Proof.
  intro H.
  destruct (segment_line_to_boxes_ok_inv _ _ _ _ _ _ _ H)
    as (V0 & V1 & Vn & Hs & Hn & Hge).
  destruct (segment_line_to_boxes_value x0 x1 y0 y1 spacing width V0 V1 Vn Hs Hn Hge)
    as (lats' & lons' & Hl1 & Hl2 & Hlen1 & Hlen2 & Hv).
  rewrite Hv in H. injection H as <- <- <- <-.
  rewrite Hlen1, Hlen2. repeat split; try assumption; try reflexivity. lia.
Qed.

(** X2: in a successful result each box is a five-point ring whose last
    corner repeats the first, and its two short edges are centred on the
    two sample points it joins: corners 0 and 3 average to sample point
    [i], corners 1 and 2 to sample point [i+1], in longitude and in
    latitude; there is one box less than sample points. *)
Theorem segment_boxes_centred_on_line (x0 x1 y0 y1 spacing width : Q)
  (BOXESX BOXESY : list (list Q)) (lats lons : list Q) :
  segment_line_to_boxes x0 x1 y0 y1 spacing width = Ok (BOXESX, BOXESY, lats, lons) ->
  length BOXESX = (length lats - 1)%nat /\
  length BOXESY = (length lats - 1)%nat /\
  length lons = length lats /\
  forall i bx by_,
    nth_error BOXESX i = Some bx -> nth_error BOXESY i = Some by_ ->
    exists lon_i lat_i lon_j lat_j cx0 cx1 cx2 cx3 cy0 cy1 cy2 cy3,
      nth_error lons i = Some lon_i /\ nth_error lats i = Some lat_i /\
      nth_error lons (S i) = Some lon_j /\ nth_error lats (S i) = Some lat_j /\
      bx = [cx0; cx1; cx2; cx3; cx0] /\ by_ = [cy0; cy1; cy2; cy3; cy0] /\
      cx0 + cx3 == 2 * lon_i /\ cy0 + cy3 == 2 * lat_i /\
      cx1 + cx2 == 2 * lon_j /\ cy1 + cy2 == 2 * lat_j.
Proof.
  intro H.
  destruct (segment_line_to_boxes_rings _ _ _ _ _ _ _ _ _ _ H)
    as (H1 & Hl & _ & _ & -> & ->).
  rewrite !length_map, !length_seq.
  split; [reflexivity|]. split; [reflexivity|]. split; [exact Hl|].
  intros i bx by_ Hx Hy.
  apply nth_error_map_seq in Hx, Hy. destruct Hx as [Hi ->]. destruct Hy as [_ ->].
  unfold ring_at. cbn [fst snd]. rewrite Nat.add_1_r.
  exists (nth i lons 0), (nth i lats 0), (nth (S i) lons 0), (nth (S i) lats 0).
  do 8 eexists.
  split; [apply nth_error_nth'; lia|].
  split; [apply nth_error_nth'; lia|].
  split; [apply nth_error_nth'; lia|].
  split; [apply nth_error_nth'; lia|].
  split; [reflexivity|]. split; [reflexivity|].
  repeat split; ring.
Qed.

(** X3: consecutive boxes share their common short edge: corners 1 and 2
    of box [i] are corners 0 and 3 of box [i+1]. *)
Theorem segment_boxes_adjacent (x0 x1 y0 y1 spacing width : Q)
  (BOXESX BOXESY : list (list Q)) (lats lons : list Q) :
  segment_line_to_boxes x0 x1 y0 y1 spacing width = Ok (BOXESX, BOXESY, lats, lons) ->
  forall i bx bx' by_ by',
    nth_error BOXESX i = Some bx -> nth_error BOXESX (S i) = Some bx' ->
    nth_error BOXESY i = Some by_ -> nth_error BOXESY (S i) = Some by' ->
    nth_error bx 1 = nth_error bx' 0 /\ nth_error bx 2 = nth_error bx' 3 /\
    nth_error by_ 1 = nth_error by' 0 /\ nth_error by_ 2 = nth_error by' 3.
Proof.
  intro H.
  destruct (segment_line_to_boxes_rings _ _ _ _ _ _ _ _ _ _ H)
    as (_ & _ & _ & _ & -> & ->).
  intros i bx bx' by_ by' Hx Hx' Hy Hy'.
  apply nth_error_map_seq in Hx, Hx', Hy, Hy'.
  destruct Hx as [_ ->]. destruct Hx' as [_ ->].
  destruct Hy as [_ ->]. destruct Hy' as [_ ->].
  unfold ring_at. cbn [fst snd nth_error]. rewrite !Nat.add_1_r.
  repeat split; reflexivity.
Qed.

Lemma np_linspace_nth (start stop : Q) (num : Z) (l : list Q) (i : nat) (a : Q) :
  np_linspace start stop num = Ok l ->
  nth_error l i = Some a ->
  (num = 1%Z -> a == start) /\
  ((2 <= num)%Z ->
   a == start + inject_Z (Z.of_nat i) * ((stop - start) / inject_Z (num - 1))).
Proof.
  unfold np_linspace. destruct (num <? 0)%Z eqn:E; [discriminate|].
  apply Z.ltb_ge in E. intro H. injection H as <-. intro Hi.
  apply nth_error_map_seq in Hi. destruct Hi as [Hi ->]. split.
  - intros ->. change (Z.to_nat 1) with 1%nat in *. cbn [Nat.ltb Nat.leb andb].
    assert (i = 0%nat) by lia. subst i. cbn. ring.
  - intro H2.
    assert (Hd : ~ inject_Z (num - 1) == 0).
    { unfold Qeq. simpl. lia. }
    destruct ((1 <? Z.to_nat num)%nat && (i =? Z.to_nat num - 1)%nat) eqn:Elast.
    + apply andb_prop in Elast. destruct Elast as [_ Ei].
      apply Nat.eqb_eq in Ei. subst i.
      replace (Z.of_nat (Z.to_nat num - 1)) with (num - 1)%Z by lia.
      field. exact Hd.
    + destruct (0 <? num - 1)%Z eqn:Ez; [ring|].
      apply Z.ltb_ge in Ez. lia.
Qed.

(** X4: the sample points returned with the boxes are the linear
    interpolation between the end points in coordinate space: with
    [n >= 2] points, point [i] is [start + i * (stop - start) / (n - 1)];
    a single point is the start point. *)
Theorem segment_sample_points (x0 x1 y0 y1 spacing width : Q)
  (BOXESX BOXESY : list (list Q)) (lats lons : list Q) :
  segment_line_to_boxes x0 x1 y0 y1 spacing width = Ok (BOXESX, BOXESY, lats, lons) ->
  let n := Qfloor (geodesic_m (y0, x0) (y1, x1) / spacing) in
  length lats = Z.to_nat n /\ length lons = Z.to_nat n /\
  forall i lat_i lon_i,
    nth_error lats i = Some lat_i -> nth_error lons i = Some lon_i ->
    (n = 1%Z -> lat_i == y0 /\ lon_i == x0) /\
    ((2 <= n)%Z ->
     lat_i == y0 + inject_Z (Z.of_nat i) * ((y1 - y0) / inject_Z (n - 1)) /\
     lon_i == x0 + inject_Z (Z.of_nat i) * ((x1 - x0) / inject_Z (n - 1))).
Proof.
  intros H n.
  destruct (segment_line_to_boxes_rings _ _ _ _ _ _ _ _ _ _ H)
    as (_ & _ & Hl1 & Hl2 & _ & _).
  fold n in Hl1, Hl2.
  split; [apply (np_linspace_length _ _ _ _ Hl1)|].
  split; [apply (np_linspace_length _ _ _ _ Hl2)|].
  intros i lat_i lon_i Hlat Hlon.
  destruct (np_linspace_nth _ _ _ _ _ _ Hl1 Hlat) as [A1 A2].
  destruct (np_linspace_nth _ _ _ _ _ _ Hl2 Hlon) as [B1 B2].
  split; intro Hn; split; auto.
Qed.

(** X5: how the segmentation fails.  A latitude outside [-90, 90] in an
    end point raises ValueError before anything else.  Otherwise a zero
    spacing raises ZeroDivisionError; a negative number of points is
    refused by [np.linspace] with ValueError; and, once
    [floor(Len/spacing) >= 0], a zero-length normal (as for coincident
    end points) raises ZeroDivisionError, unless its first component is
    not a latitude geopy accepts, which raises ValueError. *)
Theorem segment_line_to_boxes_errors (x0 x1 y0 y1 spacing width : Q) :
  (valid_latitude y0 && valid_latitude y1 = false ->
   segment_line_to_boxes x0 x1 y0 y1 spacing width = Raise ValueError) /\
  (spacing == 0 ->
   segment_line_to_boxes x0 x1 y0 y1 spacing width
   = Raise (if valid_latitude y0 && valid_latitude y1
            then ZeroDivisionError else ValueError)) /\
  (~ spacing == 0 ->
   (Qfloor (geodesic_m (y0, x0) (y1, x1) / spacing) < 0)%Z ->
   segment_line_to_boxes x0 x1 y0 y1 spacing width = Raise ValueError) /\
  (~ spacing == 0 ->
   (0 <= Qfloor (geodesic_m (y0, x0) (y1, x1) / spacing))%Z ->
   geodesic_m (0, 0) (- (y1 - y0), x1 - x0) == 0 ->
   segment_line_to_boxes x0 x1 y0 y1 spacing width
   = Raise (if valid_latitude y0 && valid_latitude y1
               && valid_latitude (- (y1 - y0))
            then ZeroDivisionError else ValueError)).
Proof.
  split; [apply segment_line_to_boxes_invalid|].
  split; [|split].
  - intro Hs.
    destruct (valid_latitude y0 && valid_latitude y1) eqn:V;
      [|apply segment_line_to_boxes_invalid; exact V].
    apply andb_prop in V. destruct V as [V0 V1].
    rewrite (segment_line_to_boxes_valid _ _ _ _ _ _ V0 V1). unfold py_div at 1.
    apply Qeq_bool_iff in Hs. rewrite Hs. reflexivity.
  - apply segment_line_to_boxes_negative.
  - intros Hs Hge Hn.
    destruct (valid_latitude y0 && valid_latitude y1) eqn:V;
      [|apply segment_line_to_boxes_invalid; exact V].
    apply andb_prop in V. destruct V as [V0 V1].
    rewrite (segment_line_to_boxes_valid _ _ _ _ _ _ V0 V1).
    rewrite (py_div_ok _ _ Hs). cbn [bind].
    destruct (np_linspace_total y0 y1 _ Hge) as (lats & ->).
    destruct (np_linspace_total x0 x1 _ Hge) as (lons & ->).
    cbn [bind andb]. unfold geopy_distance_m. cbn [fst].
    change (valid_latitude 0) with true. cbn [andb].
    destruct (valid_latitude (- (y1 - y0))); [|reflexivity].
    cbn [bind]. unfold py_div.
    apply Qeq_bool_iff in Hn. rewrite Hn. reflexivity.
Qed.

(** ** More on the date axis and the nearest-pixel extraction *)

(** X6: the first-date-column heuristic returns the position of the first
    label that begins with "20", whatever follows it. *)
Theorem first_date_column_first_match (headings : list string) (k : nat) :
  first_date_column headings = Ok k <->
  (exists h, nth_error headings k = Some h /\ String.prefix "20" h = true) /\
  (forall j h, (j < k)%nat -> nth_error headings j = Some h ->
               String.prefix "20" h = false).
Proof.
  unfold first_date_column, np_where. split.
  - intro H. apply getitem_ok in H.
    destruct (where_from 0 (map (String.prefix "20") headings)) as [|k' rest] eqn:E;
      [discriminate|].
    injection H as ->.
    apply where_from_spec in E. destruct E as (_ & Hk & Hbefore).
    rewrite Nat.sub_0_r in Hk, Hbefore. split.
    + apply nth_error_map_inv in Hk. destruct Hk as (h & Hh & Hp). eauto.
    + intros j h Hj Hh. specialize (Hbefore j Hj).
      rewrite nth_error_map, Hh in Hbefore. simpl in Hbefore. congruence.
  - intros [(h & Hh & Hp) Hbefore].
    destruct (where_from_first (map (String.prefix "20") headings) 0 k) as (rest & ->).
    + rewrite nth_error_map, Hh. simpl. rewrite Hp. reflexivity.
    + intros j Hj. rewrite nth_error_map.
      destruct (nth_error headings j) as [h'|] eqn:E.
      * simpl. rewrite (Hbefore j h' Hj E). reflexivity.
      * apply nth_error_None in E.
        assert (k < length headings)%nat by (apply nth_error_Some; congruence). lia.
    + reflexivity.
Qed.

Lemma mapM_of_option_ok {X Y} (e : PyError) (f : X -> option Y) (l : list X)
  (ys : list Y) :
  mapM (fun x => of_option e (f x)) l = Ok ys <->
  Forall2 (fun x y => f x = Some y) l ys.
Proof.
  revert ys. induction l as [|x r IH]; intro ys; cbn [mapM].
  - split; intro H.
    + injection H as <-. constructor.
    + inversion H. reflexivity.
  - destruct (f x) as [y|] eqn:E; cbn [of_option bind].
    + destruct (mapM (fun x => of_option e (f x)) r) as [bs|e'] eqn:Er; cbn [bind].
      * split; intro H.
        -- injection H as <-. constructor; [exact E | apply IH; reflexivity].
        -- inversion H as [|? y' ? bs' Hy Hr]; subst.
           apply IH in Hr. congruence.
      * split; [discriminate|]. intro H.
        inversion H as [|? y' ? bs' Hy Hr]; subst. apply IH in Hr. discriminate.
    + split; [discriminate|]. intro H.
      inversion H as [|? y' ? bs' Hy Hr]; subst. congruence.
Qed.

Lemma mapM_of_option_raise {X Y} (e : PyError) (f : X -> option Y) (l : list X) :
  (exists x, In x l /\ f x = None) ->
  mapM (fun x => of_option e (f x)) l = Raise e.
Proof.
  induction l as [|x r IH]; intros (x0 & Hin & Hx); [destruct Hin|].
  cbn [mapM]. destruct (f x) as [y|] eqn:E; cbn [of_option bind]; [|reflexivity].
  rewrite IH; [reflexivity|].
  destruct Hin as [->|Hin]; [congruence|]. eauto.
Qed.

(** X7: past the first date column every label must be a date:
    [get_dates] returns one number per label from that column on, in
    order, and raises ValueError as soon as one of those labels does not
    parse as [%Y%m%d]. *)
Theorem get_dates_every_label (Data : DataFrame) (idx : nat) :
  first_date_column (columns Data) = Ok idx ->
  (forall ds,
      get_dates Data = Ok ds <->
      Forall2 (fun label d => strptime_num label "%Y%m%d" = Some d)
              (skipn idx (columns Data)) ds) /\
  (forall ds, get_dates Data = Ok ds ->
              length ds = (length (columns Data) - idx)%nat) /\
  ((exists label, In label (skipn idx (columns Data)) /\
                  strptime_num label "%Y%m%d" = None) ->
   get_dates Data = Raise ValueError).
Proof.
  intro Hc. unfold get_dates, parse_dates. rewrite Hc. cbn [bind].
  split; [|split].
  - intro ds. apply mapM_of_option_ok.
  - intros ds H. apply mapM_of_option_ok in H.
    apply Forall2_length in H. rewrite <- H. apply length_skipn.
  - apply mapM_of_option_raise.
Qed.

Lemma nearest_pixel_in_range (tol : Q) (msg : string) (lat lon : Q)
  (Data : DataFrame) (i : nat) :
  nearest_pixel tol msg lat lon Data = Ok i ->
  exists klat klon r,
    index_of "Latitude" (columns Data) = Some klat /\
    index_of "Longitude" (columns Data) = Some klon /\
    nth_error (rows Data) i = Some r /\
    first_least (map (record_dist lat lon klat klon) (rows Data)) i
                (record_dist lat lon klat klon r) /\
    record_dist lat lon klat klon r < tol.
Proof.
  intro H.
  destruct (index_of "Latitude" (columns Data)) as [klat|] eqn:Elat.
  2: { unfold nearest_pixel, pixel_dist, getcol in H. rewrite Elat in H. discriminate. }
  destruct (index_of "Longitude" (columns Data)) as [klon|] eqn:Elon.
  2: { unfold nearest_pixel, pixel_dist, getcol in H.
       rewrite Elat, Elon in H. discriminate. }
  exists klat, klon.
  destruct (nearest_pixel_cases tol msg lat lon Data klat klon Elat Elon)
    as [[_ Hn]|(k & v & Hfl & _ & Hn)]; [congruence|].
  rewrite Hn in H. destruct (Qle_bool tol v) eqn:E; [discriminate|].
  injection H as ->.
  pose proof Hfl as (Hi & _).
  apply nth_error_map_inv in Hi. destruct Hi as (r & Hr & ->).
  exists r. repeat split; try assumption; try apply Hfl.
  apply Qltb_lt. unfold Qltb. rewrite E. reflexivity.
Qed.

(** X8: a successful extraction returns the date axis [get_dates] gives
    for the same dataset, and the series is the cells of one record from
    the first date column on, each times [factor]; when that record has
    one cell per column, dates and series have the same length. *)
Theorem extract_series_aligned (lat lon factor : Q) (Data : DataFrame)
  (dates Series : list Q) :
  extract_series_from_latlon lat lon Data factor = Ok (dates, Series) ->
  get_dates Data = Ok dates /\
  exists index idx r,
    nearest_pixel (1 # 2) no_pixels_half lat lon Data = Ok index /\
    first_date_column (columns Data) = Ok idx /\
    nth_error (rows Data) index = Some r /\
    Series = map (Qmult factor) (skipn idx r) /\
    length dates = (length (columns Data) - idx)%nat /\
    (length r = length (columns Data) -> length Series = length dates).
Proof.
  unfold extract_series_from_latlon. intro H.
  apply bind_ok in H. destruct H as (index & Hn & H).
  apply bind_ok in H. destruct H as (idx & Hc & H).
  apply bind_ok in H. destruct H as (ds & Hp & H).
  injection H as <- <-.
  assert (Hg : get_dates Data = Ok ds).
  { unfold get_dates. rewrite Hc. cbn [bind]. exact Hp. }
  split; [exact Hg|].
  destruct (nearest_pixel_in_range _ _ _ _ _ _ Hn) as (klat & klon & r & _ & _ & Hr & _).
  exists index, idx, r.
  assert (Hlen : length ds = (length (columns Data) - idx)%nat).
  { unfold parse_dates in Hp. apply mapM_of_option_ok in Hp.
    apply Forall2_length in Hp. rewrite <- Hp. apply length_skipn. }
  assert (Hser : iloc_from Data index idx = skipn idx r).
  { unfold iloc_from. rewrite (nth_error_nth _ _ [] Hr). reflexivity. }
  rewrite Hser.
  repeat split; try assumption.
  intro Hrect. rewrite length_map, length_skipn, Hlen, Hrect. reflexivity.
Qed.

(** X9: the lookup is monotone in its tolerance: a pixel found within
    [tol] is the pixel found within any larger tolerance; so whenever
    [extract_series_from_latlon] (0.5 degree) finds a pixel,
    [plot_series_latlon] (1 degree) plots that same pixel. *)
Theorem nearest_pixel_tolerance_monotone (tol tol' : Q) (msg msg' : string)
  (lat lon : Q) (Data : DataFrame) (i : nat) :
  tol <= tol' ->
  nearest_pixel tol msg lat lon Data = Ok i ->
  nearest_pixel tol' msg' lat lon Data = Ok i /\
  (tol == 1 # 2 -> plot_series_latlon_index lat lon Data = Ok i).
Proof.
  intros Hle H.
  assert (Hmono : forall t m', tol <= t -> nearest_pixel t m' lat lon Data = Ok i).
  { intros t m' Ht. unfold nearest_pixel in *.
    apply bind_ok in H. destruct H as (dist & -> & H). cbn [bind].
    apply bind_ok in H. destruct H as (m & -> & H). cbn [bind].
    destruct (Qle_bool tol m) eqn:E; [discriminate|].
    destruct (Qle_bool t m) eqn:E'; [|exact H].
    apply Qle_bool_iff in E'.
    assert (tol <= m) by lra. apply Qle_bool_iff in H0. congruence. }
  split; [apply Hmono; exact Hle|].
  intro Hhalf. unfold plot_series_latlon_index. apply Hmono. lra.
Qed.

(** X10: the extraction needs both coordinate columns and at least one
    record: a missing "Latitude" or "Longitude" column raises KeyError, a
    dataset without rows raises ValueError (the minimum of an empty
    array), and a successful lookup returns the position of an existing
    record that is nearer than 0.5 degree. *)
Theorem extract_series_preconditions (lat lon factor : Q) (Data : DataFrame) :
  (index_of "Latitude" (columns Data) = None ->
   extract_series_from_latlon lat lon Data factor = Raise KeyError) /\
  (index_of "Longitude" (columns Data) = None ->
   extract_series_from_latlon lat lon Data factor = Raise KeyError) /\
  (index_of "Latitude" (columns Data) <> None ->
   index_of "Longitude" (columns Data) <> None ->
   rows Data = [] ->
   extract_series_from_latlon lat lon Data factor = Raise ValueError) /\
  (forall i, nearest_pixel (1 # 2) no_pixels_half lat lon Data = Ok i ->
             (i < length (rows Data))%nat).
Proof.
  split; [|split; [|split]].
  - intro H. unfold extract_series_from_latlon, nearest_pixel, pixel_dist, getcol.
    rewrite H. reflexivity.
  - intro H. unfold extract_series_from_latlon, nearest_pixel, pixel_dist, getcol.
    rewrite H. destruct (index_of "Latitude" (columns Data)); reflexivity.
  - intros Hlat Hlon Hrows.
    destruct (index_of "Latitude" (columns Data)) as [klat|] eqn:Elat; [|congruence].
    destruct (index_of "Longitude" (columns Data)) as [klon|] eqn:Elon; [|congruence].
    destruct (nearest_pixel_cases (1 # 2) no_pixels_half lat lon Data klat klon Elat Elon)
      as [[_ Hn]|(k & v & (Hk & _) & _)].
    + unfold extract_series_from_latlon. rewrite Hn. reflexivity.
    + rewrite Hrows in Hk. destruct k; discriminate.
  - intros i H.
    destruct (nearest_pixel_in_range _ _ _ _ _ _ H) as (_ & _ & r & _ & _ & Hr & _).
    apply nth_error_Some. congruence.
Qed.

(** ** More on polygon filtering *)

Lemma zip_by_index_le (xs ys px py : list Q) :
  (length xs <= length ys)%nat -> length px = length py ->
  mapM (fun i => x <- getitem (px ++ xs) i ;; y <- getitem (py ++ ys) i ;; Ok (x, y))
       (seq (length px) (length xs))
  = Ok (combine xs ys).
Proof.
  revert ys px py.
  induction xs as [|x xs IH]; intros ys px py Hl Hp; [reflexivity|].
  destruct ys as [|y ys]; simpl in Hl; [lia|].
  cbn [length seq mapM combine].
  unfold getitem at 1 2.
  rewrite (nth_error_app2 px) by lia. rewrite Nat.sub_diag.
  rewrite (nth_error_app2 py) by lia.
  replace (length px - length py)%nat with 0%nat by lia. simpl.
  replace (px ++ x :: xs) with ((px ++ [x]) ++ xs) by (rewrite <- app_assoc; reflexivity).
  replace (py ++ y :: ys) with ((py ++ [y]) ++ ys) by (rewrite <- app_assoc; reflexivity).
  replace (S (length px)) with (length (px ++ [x])) by (rewrite length_app; simpl; lia).
  rewrite IH.
  - reflexivity.
  - lia.
  - rewrite !length_app. simpl. lia.
Qed.

Lemma zip_by_index_short (xs ys px py : list Q) :
  (length ys < length xs)%nat -> length px = length py ->
  mapM (fun i => x <- getitem (px ++ xs) i ;; y <- getitem (py ++ ys) i ;; Ok (x, y))
       (seq (length px) (length xs))
  = Raise IndexError.
Proof.
  revert ys px py.
  induction xs as [|x xs IH]; intros ys px py Hl Hp; simpl in Hl; [lia|].
  cbn [length seq mapM].
  unfold getitem at 1 2.
  rewrite (nth_error_app2 px) by lia. rewrite Nat.sub_diag.
  rewrite (nth_error_app2 py) by lia.
  replace (length px - length py)%nat with 0%nat by lia.
  destruct ys as [|y ys]; [reflexivity|]. simpl. simpl in Hl.
  replace (px ++ x :: xs) with ((px ++ [x]) ++ xs) by (rewrite <- app_assoc; reflexivity).
  replace (py ++ y :: ys) with ((py ++ [y]) ++ ys) by (rewrite <- app_assoc; reflexivity).
  replace (S (length px)) with (length (px ++ [x])) by (rewrite length_app; simpl; lia).
  rewrite IH.
  - reflexivity.
  - lia.
  - rewrite !length_app. simpl. lia.
Qed.

Lemma contains_points_map {X} (p : list (Q * Q)) (h : X -> Q * Q) (rs : list X) :
  contains_points p (map h rs)
  = match rs with
    | [] => Raise ValueError
    | _ => Ok (map (fun r => contains_point p (h r)) rs)
    end.
Proof.
  destruct rs as [|r rs]; [reflexivity|].
  unfold contains_points. cbn [map]. rewrite map_map. reflexivity.
Qed.

Lemma inpolygon_cases (xq yq xv yv : list Q) :
  length xq = length yq ->
  ((length xv <= length yv)%nat ->
   inpolygon xq yq xv yv
   = (p <- path_Path (combine xv yv) ;; contains_points p (combine xq yq))) /\
  ((length yv < length xv)%nat -> inpolygon xq yq xv yv = Raise IndexError).
Proof.
  intro Hq. unfold inpolygon.
  pose proof (zip_by_index xq yq [] [] Hq eq_refl) as Eq. simpl in Eq. rewrite Eq.
  cbn [bind]. split; intro Hv.
  - pose proof (zip_by_index_le xv yv [] [] Hv eq_refl) as Ev. simpl in Ev.
    rewrite Ev. reflexivity.
  - pose proof (zip_by_index_short xv yv [] [] Hv eq_refl) as Ev. simpl in Ev.
    rewrite Ev. reflexivity.
Qed.

Lemma extract_from_polygon_cases (Polylon Polylat : list Q) (Data : DataFrame)
  (klat klon : nat) :
  index_of "Latitude" (columns Data) = Some klat ->
  index_of "Longitude" (columns Data) = Some klon ->
  ((length Polylon <= length Polylat)%nat ->
   extract_from_polygon Polylon Polylat Data
   = match Polylon, rows Data with
     | [], _ => Raise ValueError
     | _, [] => Raise ValueError
     | _, _ =>
         Ok (mkDataFrame (columns Data)
               (filter (fun r => contains_point (combine Polylon Polylat)
                                   (nth klon r 0, nth klat r 0)) (rows Data)))
     end) /\
  ((length Polylat < length Polylon)%nat ->
   extract_from_polygon Polylon Polylat Data = Raise IndexError).
Proof.
  intros Hlat Hlon. unfold extract_from_polygon.
  rewrite (getcol_index _ _ _ Hlat), (getcol_index _ _ _ Hlon). cbn [bind].
  match goal with
  | |- context [inpolygon ?a ?b Polylon Polylat] =>
      destruct (inpolygon_cases a b Polylon Polylat) as [Hle Hlt];
        [rewrite !length_map; reflexivity|]
  end.
  split; intro H.
  - rewrite (Hle H). rewrite combine_map.
    destruct Polylon as [|v P]; [reflexivity|].
    destruct Polylat as [|w L]; [simpl in H; lia|].
    cbn [combine path_Path bind]. rewrite contains_points_map.
    destruct (rows Data) as [|r rs]; [reflexivity|].
    cbn [bind].
    rewrite (mask_rows_filter
               (fun r0 => contains_point ((v, w) :: combine P L)
                            (nth klon r0 0, nth klat r0 0))).
    reflexivity.
  - rewrite (Hlt H). reflexivity.
Qed.

(** X11: the polygon filter needs both coordinate columns (KeyError
    otherwise); it reads one latitude per polygon longitude, so a
    latitude array that is too short raises IndexError, while surplus
    latitudes are ignored. *)
Theorem extract_from_polygon_inputs (Polylon Polylat : list Q) (Data : DataFrame) :
  (index_of "Latitude" (columns Data) = None ->
   extract_from_polygon Polylon Polylat Data = Raise KeyError) /\
  (index_of "Longitude" (columns Data) = None ->
   extract_from_polygon Polylon Polylat Data = Raise KeyError) /\
  (index_of "Latitude" (columns Data) <> None ->
   index_of "Longitude" (columns Data) <> None ->
   (length Polylat < length Polylon)%nat ->
   extract_from_polygon Polylon Polylat Data = Raise IndexError) /\
  ((length Polylon <= length Polylat)%nat ->
   extract_from_polygon Polylon Polylat Data
   = extract_from_polygon Polylon (firstn (length Polylon) Polylat) Data).
Proof.
  split; [|split; [|split]].
  - intro H. unfold extract_from_polygon, getcol. rewrite H. reflexivity.
  - intro H. unfold extract_from_polygon, getcol. rewrite H.
    destruct (index_of "Latitude" (columns Data)); reflexivity.
  - intros Hlat Hlon Hshort.
    destruct (index_of "Latitude" (columns Data)) as [klat|] eqn:Elat; [|congruence].
    destruct (index_of "Longitude" (columns Data)) as [klon|] eqn:Elon; [|congruence].
    apply (extract_from_polygon_cases Polylon Polylat Data klat klon Elat Elon).
    exact Hshort.
  - intro Hle.
    destruct (index_of "Latitude" (columns Data)) as [klat|] eqn:Elat.
    2: { unfold extract_from_polygon, getcol. rewrite Elat. reflexivity. }
    destruct (index_of "Longitude" (columns Data)) as [klon|] eqn:Elon.
    2: { unfold extract_from_polygon, getcol. rewrite Elat, Elon. reflexivity. }
    rewrite (proj1 (extract_from_polygon_cases Polylon Polylat Data klat klon
                      Elat Elon) Hle).
    rewrite (proj1 (extract_from_polygon_cases Polylon
                      (firstn (length Polylon) Polylat) Data klat klon Elat Elon))
      by (rewrite length_firstn; lia).
    rewrite combine_firstn_l. reflexivity.
Qed.

Lemma filter_idempotent {X} (f : X -> bool) (l : list X) :
  filter f (filter f l) = filter f l.
Proof.
  induction l as [|x r IH]; simpl; [reflexivity|].
  destruct (f x) eqn:E; simpl; [rewrite E, IH|]; auto.
Qed.

(** X12: filtering keeps the table's shape and is idempotent on what it
    keeps: the result has the columns of the input, so the same date
    axis; it has no more records than the input, each of them a record of
    the input; filtering a result that has records again with the same
    polygon returns it unchanged, while a result without records cannot
    be filtered again (ValueError on the empty list of points). *)
Theorem extract_from_polygon_idempotent (Polylon Polylat : list Q)
  (Data Datafilt : DataFrame) :
  extract_from_polygon Polylon Polylat Data = Ok Datafilt ->
  columns Datafilt = columns Data /\
  get_dates Datafilt = get_dates Data /\
  (length (rows Datafilt) <= length (rows Data))%nat /\
  (forall r, In r (rows Datafilt) -> In r (rows Data)) /\
  (rows Datafilt <> [] ->
   extract_from_polygon Polylon Polylat Datafilt = Ok Datafilt) /\
  (rows Datafilt = [] ->
   extract_from_polygon Polylon Polylat Datafilt = Raise ValueError).
Proof.
  intro H.
  destruct (index_of "Latitude" (columns Data)) as [klat|] eqn:Elat.
  2: { unfold extract_from_polygon, getcol in H. rewrite Elat in H. discriminate. }
  destruct (index_of "Longitude" (columns Data)) as [klon|] eqn:Elon.
  2: { unfold extract_from_polygon, getcol in H. rewrite Elat, Elon in H. discriminate. }
  destruct (extract_from_polygon_cases Polylon Polylat Data klat klon Elat Elon)
    as [Hle Hlt].
  destruct (Nat.le_gt_cases (length Polylon) (length Polylat)) as [Hl|Hl].
  2: { rewrite (Hlt Hl) in H. discriminate. }
  rewrite (Hle Hl) in H.
  destruct Polylon as [|v P]; [discriminate|].
  destruct (rows Data) as [|r0 rs0] eqn:Erows; [discriminate|].
  set (f := fun r : list Q =>
              contains_point (combine (v :: P) Polylat)
                             (nth klon r 0, nth klat r 0)) in *.
  assert (HD : Datafilt = mkDataFrame (columns Data) (filter f (r0 :: rs0)))
    by congruence.
  subst Datafilt. cbn [columns rows].
  split; [reflexivity|]. split; [reflexivity|].
  split; [apply filter_length_le|].
  split; [intros r Hr; apply filter_In in Hr; exact (proj1 Hr)|].
  pose proof (proj1 (extract_from_polygon_cases (v :: P) Polylat
              (mkDataFrame (columns Data) (filter f (r0 :: rs0)))
              klat klon Elat Elon) Hl) as Hre.
  cbn [columns rows] in Hre. fold f in Hre. rewrite filter_idempotent in Hre.
  split; intro Hres.
  - rewrite Hre. destruct (filter f (r0 :: rs0)); [congruence | reflexivity].
  - rewrite Hre, Hres. reflexivity.
Qed.

(** ** More on the mean series *)




(** ** Removing the all-zero rows *)

Lemma select_mask_In {X} (mask : list bool) (l : list X) (x : X) :
  In x (select_mask mask l) <->
  exists j, nth_error mask j = Some true /\ nth_error l j = Some x.
Proof.
  revert l. induction mask as [|b mask IH]; intro l.
  - simpl. split; [intros [] | intros ([|j] & H & _); discriminate].
  - destruct l as [|a l].
    + simpl. split; [intros [] | intros ([|j] & _ & H); discriminate].
    + cbn [select_mask]. destruct b.
      * split.
        -- intros [<-|H]; [exists 0%nat; split; reflexivity|].
           apply IH in H. destruct H as (j & H1 & H2). exists (S j). auto.
        -- intros ([|j] & H1 & H2); simpl in *.
           ++ left. congruence.
           ++ right. apply IH. eauto.
      * rewrite IH. split.
        -- intros (j & H1 & H2). exists (S j). auto.
        -- intros ([|j] & H1 & H2); simpl in *; [discriminate | eauto].
Qed.

Lemma data_column_true (c : string) :
  data_column c = true <-> c <> "Longitude"%string /\ c <> "Latitude"%string.
Proof.
  unfold data_column, label_in. cbn [existsb]. rewrite orb_false_r.
  rewrite negb_true_iff, orb_false_iff, !String.eqb_neq. reflexivity.
Qed.

Lemma nonzero_data_row_spec (cols : list string) (r : list Q) :
  nonzero_data_row cols r = true <-> has_nonzero_data cols r.
Proof.
  unfold nonzero_data_row, has_nonzero_data. rewrite existsb_exists. split.
  - intros (x & Hin & Hx). apply select_mask_In in Hin.
    destruct Hin as (j & Hm & Hr). apply nth_error_map_inv in Hm.
    destruct Hm as (c & Hc & Hd). symmetry in Hd. apply data_column_true in Hd.
    destruct Hd as [Hd1 Hd2].
    exists j, c, x. repeat split; try assumption.
    intro Hz. apply Qeq_bool_iff in Hz. rewrite Hz in Hx. discriminate.
  - intros (j & c & x & Hc & H1 & H2 & Hr & Hx).
    exists x. split.
    + apply select_mask_In. exists j. split; [|exact Hr].
      rewrite nth_error_map, Hc. simpl. f_equal. apply data_column_true.
      split; assumption.
    + destruct (Qeq_bool x 0) eqn:E; [|reflexivity].
      apply Qeq_bool_iff in E. contradiction.
Qed.

Lemma remove_rows_all_zeros_value (Data : DataFrame) (klat klon : nat) :
  index_of "Latitude" (columns Data) = Some klat ->
  index_of "Longitude" (columns Data) = Some klon ->
  remove_rows_all_zeros Data
  = Ok (mkDataFrame (columns Data)
          (filter (nonzero_data_row (columns Data)) (rows Data))).
Proof.
  intros Hlat Hlon. unfold remove_rows_all_zeros, drop_columns.
  cbn [mapM]. rewrite Hlon, Hlat. cbn [of_option bind rows].
  rewrite map_map.
  rewrite (mask_rows_filter (nonzero_data_row (columns Data))). reflexivity.
Qed.

(** X14: [remove_rows_all_zeros] keeps, in their original order and with
    all their columns, exactly the rows that have a non-zero cell outside
    the Longitude and Latitude columns; a row whose only non-zero cells
    are its coordinates is removed. *)
Theorem remove_rows_all_zeros_keeps (Data : DataFrame) (klat klon : nat) :
  index_of "Latitude" (columns Data) = Some klat ->
  index_of "Longitude" (columns Data) = Some klon ->
  exists (data_filtered : DataFrame) (keep : list Q -> bool),
    remove_rows_all_zeros Data = Ok data_filtered /\
    columns data_filtered = columns Data /\
    rows data_filtered = filter keep (rows Data) /\
    (forall r, keep r = true <-> has_nonzero_data (columns Data) r) /\
    (forall r, In r (rows data_filtered) <->
               In r (rows Data) /\ has_nonzero_data (columns Data) r).
Proof.
  intros Hlat Hlon.
  exists (mkDataFrame (columns Data)
            (filter (nonzero_data_row (columns Data)) (rows Data))),
         (nonzero_data_row (columns Data)).
  split; [apply (remove_rows_all_zeros_value Data klat klon Hlat Hlon)|].
  split; [reflexivity|]. split; [reflexivity|].
  split; [apply nonzero_data_row_spec|].
  intro r. cbn [rows]. rewrite filter_In, nonzero_data_row_spec. reflexivity.
Qed.

(** X15: [remove_rows_all_zeros] raises KeyError when the Longitude or
    the Latitude column is missing, and it is idempotent: applied to its
    own result it returns that result. *)
Theorem remove_rows_all_zeros_idempotent (Data : DataFrame) :
  (index_of "Longitude" (columns Data) = None ->
   remove_rows_all_zeros Data = Raise KeyError) /\
  (index_of "Latitude" (columns Data) = None ->
   remove_rows_all_zeros Data = Raise KeyError) /\
  (forall data_filtered,
      remove_rows_all_zeros Data = Ok data_filtered ->
      remove_rows_all_zeros data_filtered = Ok data_filtered).
Proof.
  split; [|split].
  - intro H. unfold remove_rows_all_zeros, drop_columns. cbn [mapM].
    rewrite H. reflexivity.
  - intro H. unfold remove_rows_all_zeros, drop_columns. cbn [mapM].
    rewrite H. destruct (index_of "Longitude" (columns Data)); reflexivity.
  - intros D' H.
    destruct (index_of "Longitude" (columns Data)) as [klon|] eqn:Elon.
    2: { unfold remove_rows_all_zeros, drop_columns in H. cbn [mapM] in H.
         rewrite Elon in H. discriminate. }
    destruct (index_of "Latitude" (columns Data)) as [klat|] eqn:Elat.
    2: { unfold remove_rows_all_zeros, drop_columns in H. cbn [mapM] in H.
         rewrite Elon, Elat in H. discriminate. }
    rewrite (remove_rows_all_zeros_value Data klat klon Elat Elon) in H.
    injection H as <-.
    rewrite (remove_rows_all_zeros_value
               (mkDataFrame (columns Data)
                  (filter (nonzero_data_row (columns Data)) (rows Data)))
               klat klon Elat Elon).
    cbn [columns rows]. rewrite filter_idempotent. reflexivity.
Qed.

(** ** Renaming the imported columns *)

Lemma rename_two (a A b B c : string) :
  rename_labels [(a, A); (b, B)] [c]
  = [if String.eqb a c then A else if String.eqb b c then B else c].
Proof.
  unfold rename_labels. cbn [map find fst snd].
  destruct (String.eqb a c); [reflexivity|]. destruct (String.eqb b c); reflexivity.
Qed.

Lemma rename_cons (mapper : list (string * string)) (c : string) (cols : list string) :
  rename_labels mapper (c :: cols)
  = (rename_labels mapper [c] ++ rename_labels mapper cols)%list.
Proof. reflexivity. Qed.

Lemma index_of_rename (a A b B : string) (cols : list string) :
  a <> b -> A <> B -> label_in A cols = false ->
  index_of A (rename_labels [(a, A); (b, B)] cols) = index_of a cols.
Proof.
  intros Hab HAB. induction cols as [|c cols IH]; intro Hin; [reflexivity|].
  unfold label_in in Hin. cbn [existsb] in Hin. apply orb_false_iff in Hin.
  destruct Hin as [HAc Hin].
  rewrite rename_cons, rename_two. cbn [app index_of].
  destruct (String.eqb a c) eqn:Eac.
  - apply String.eqb_eq in Eac. subst c.
    rewrite !String.eqb_refl. reflexivity.
  - destruct (String.eqb b c) eqn:Ebc.
    + apply String.eqb_eq in Ebc. subst c.
      replace (String.eqb B A) with false by (symmetry; apply String.eqb_neq; congruence).
      replace (String.eqb b a) with false by (symmetry; apply String.eqb_neq; congruence).
      rewrite (IH Hin). reflexivity.
    + rewrite String.eqb_sym, HAc.
      rewrite (String.eqb_sym c a), Eac.
      rewrite (IH Hin). reflexivity.
Qed.

Lemma index_of_rename_second (a A b B : string) (cols : list string) :
  a <> b -> A <> B -> label_in B cols = false ->
  index_of B (rename_labels [(a, A); (b, B)] cols) = index_of b cols.
Proof.
  intros Hab HAB. induction cols as [|c cols IH]; intro Hin; [reflexivity|].
  unfold label_in in Hin. cbn [existsb] in Hin. apply orb_false_iff in Hin.
  destruct Hin as [HBc Hin].
  rewrite rename_cons, rename_two. cbn [app index_of].
  destruct (String.eqb a c) eqn:Eac.
  - apply String.eqb_eq in Eac. subst c.
    replace (String.eqb A B) with false by (symmetry; apply String.eqb_neq; congruence).
    replace (String.eqb a b) with false by (symmetry; apply String.eqb_neq; congruence).
    rewrite (IH Hin). reflexivity.
  - destruct (String.eqb b c) eqn:Ebc.
    + apply String.eqb_eq in Ebc. subst c.
      rewrite !String.eqb_refl. reflexivity.
    + rewrite String.eqb_sym, HBc.
      rewrite (String.eqb_sym c b), Ebc.
      rewrite (IH Hin). reflexivity.
Qed.

Lemma label_in_rename (n a A b B : string) (cols : list string) :
  n <> a -> n <> b -> n <> A -> n <> B ->
  label_in n (rename_labels [(a, A); (b, B)] cols) = label_in n cols.
Proof.
  intros Ha Hb HA HB. unfold label_in.
  induction cols as [|c cols IH]; [reflexivity|].
  rewrite rename_cons, rename_two. cbn [app existsb]. rewrite IH. f_equal.
  destruct (String.eqb a c) eqn:Eac.
  - apply String.eqb_eq in Eac. subst c.
    apply String.eqb_neq in HA, Ha. rewrite HA, Ha. reflexivity.
  - destruct (String.eqb b c) eqn:Ebc; [|reflexivity].
    apply String.eqb_eq in Ebc. subst c.
    apply String.eqb_neq in HB, Hb. rewrite HB, Hb. reflexivity.
Qed.

Lemma getcol_same_index (D D' : DataFrame) (name name' : string) :
  rows D' = rows D ->
  index_of name' (columns D') = index_of name (columns D) ->
  getcol D' name' = getcol D name.
Proof. intros Hr Hi. unfold getcol. rewrite Hi, Hr. reflexivity. Qed.

(** X16: the renaming done on import leaves the cells alone and makes the
    coordinates readable under the names the rest of the module uses: in
    a frame labelled X/Y, "Longitude" then reads the X column and
    "Latitude" the Y column; in a frame labelled latitude/longitude the
    capitalised names read those columns; a frame with neither an "X" nor
    a "latitude" label is returned as it is. *)
Theorem import_InSAR_csv_rename_columns (csvData : DataFrame) :
  label_in "Longitude" (columns csvData) = false ->
  label_in "Latitude" (columns csvData) = false ->
  rows (import_InSAR_csv_rename csvData) = rows csvData /\
  (label_in "X" (columns csvData) = true ->
   label_in "latitude" (columns csvData) = false ->
   getcol (import_InSAR_csv_rename csvData) "Longitude" = getcol csvData "X" /\
   getcol (import_InSAR_csv_rename csvData) "Latitude" = getcol csvData "Y") /\
  (label_in "X" (columns csvData) = false ->
   label_in "latitude" (columns csvData) = true ->
   getcol (import_InSAR_csv_rename csvData) "Longitude" = getcol csvData "longitude" /\
   getcol (import_InSAR_csv_rename csvData) "Latitude" = getcol csvData "latitude") /\
  (label_in "X" (columns csvData) = false ->
   label_in "latitude" (columns csvData) = false ->
   import_InSAR_csv_rename csvData = csvData).
Proof.
  intros Hlon Hlat. unfold import_InSAR_csv_rename.
  split; [|split; [|split]].
  - destruct (label_in "X" (columns csvData)); cbn [columns rows];
      match goal with |- context [if ?b then _ else _] => destruct b end; reflexivity.
  - intros HX Hl. rewrite HX. cbn [columns rows].
    rewrite label_in_rename by discriminate. rewrite Hl.
    split; apply getcol_same_index; try reflexivity; cbn [columns].
    + apply index_of_rename; [discriminate | discriminate | exact Hlon].
    + apply index_of_rename_second; [discriminate | discriminate | exact Hlat].
  - intros HX Hl. rewrite HX, Hl.
    split; apply getcol_same_index; try reflexivity; cbn [columns].
    + apply index_of_rename; [discriminate | discriminate | exact Hlon].
    + apply index_of_rename_second; [discriminate | discriminate | exact Hlat].
  - intros HX Hl. rewrite HX, Hl. reflexivity.
Qed.

(** ** Converting a size in bytes *)

Ltac lra_div :=
  unfold Qdiv in *; change (/ 1024) with (1 # 1024) in *; lra.

(** X17: [convert_bytes] picks the first of bytes, KB, MB, GB, TB in
    which the size is below 1024 and reports the size divided by 1024
    once per unit passed, a number in [[1, 1024)] past bytes; from 1024
    TB on it falls off its loop and returns [None]. *)
Theorem convert_bytes_unit (num : Q) :
  (convert_bytes num = None <-> 1125899906842624 <= num) /\
  (forall v u, convert_bytes num = Some (v, u) ->
     v < 1024 /\
     exists k, nth_error ["bytes"; "KB"; "MB"; "GB"; "TB"]%string k = Some u /\
               v == num / 1024 ^ Z.of_nat k /\
               ((0 < k)%nat -> 1 <= v)).
Proof.
  unfold convert_bytes. cbn [convert_bytes_loop].
  destruct (Qltb num 1024) eqn:E0;
    [apply Qltb_lt in E0 | apply Qltb_ge in E0;
     destruct (Qltb (num / 1024) 1024) eqn:E1;
       [apply Qltb_lt in E1 | apply Qltb_ge in E1;
        destruct (Qltb (num / 1024 / 1024) 1024) eqn:E2;
          [apply Qltb_lt in E2 | apply Qltb_ge in E2;
           destruct (Qltb (num / 1024 / 1024 / 1024) 1024) eqn:E3;
             [apply Qltb_lt in E3 | apply Qltb_ge in E3;
              destruct (Qltb (num / 1024 / 1024 / 1024 / 1024) 1024) eqn:E4;
                [apply Qltb_lt in E4 | apply Qltb_ge in E4]]]]].
  - split; [split; [discriminate | intro; exfalso; lra_div]|].
    intros v u H. injection H as <- <-. split; [exact E0|].
    exists 0%nat. split; [reflexivity|]. split; [simpl; field | lia].
  - split; [split; [discriminate | intro; exfalso; lra_div]|].
    intros v u H. injection H as <- <-. split; [exact E1|].
    exists 1%nat. split; [reflexivity|]. split; [simpl; field | intros _; lra_div].
  - split; [split; [discriminate | intro; exfalso; lra_div]|].
    intros v u H. injection H as <- <-. split; [exact E2|].
    exists 2%nat. split; [reflexivity|]. split; [simpl; field | intros _; lra_div].
  - split; [split; [discriminate | intro; exfalso; lra_div]|].
    intros v u H. injection H as <- <-. split; [exact E3|].
    exists 3%nat. split; [reflexivity|]. split; [simpl; field | intros _; lra_div].
  - split; [split; [discriminate | intro; exfalso; lra_div]|].
    intros v u H. injection H as <- <-. split; [exact E4|].
    exists 4%nat. split; [reflexivity|]. split; [simpl; field | intros _; lra_div].
  - split; [split; [intros _; lra_div | reflexivity]|]. discriminate.
Qed.

(** ** More on re-zeroing *)

Lemma rezero_series_inv (series dates : ref) (zerodate : pyval)
  (zerodateasfloat : bool) (h h' : heap) (r : ref) :
  rezero_series series dates zerodate zerodateasfloat h = Ok (r, h') ->
  exists q idx v,
    reference_date zerodate zerodateasfloat q /\
    np_argmin (map (fun d => Qabs (d - q)) (deref h dates)) = Ok idx /\
    nth_error (deref h series) idx = Some v /\
    r = length h /\
    h' = (h ++ [map (fun x => x - v) (deref h series)])%list.
Proof.
  unfold rezero_series. intro H.
  apply bind_ok in H. destruct H as (q & Hq & H).
  apply bind_ok in H. destruct H as (idx & Hidx & H).
  apply bind_ok in H. destruct H as (v & Hv & H).
  injection H as <- <-. exists q, idx, v.
  split; [|split; [exact Hidx|split; [apply getitem_ok; exact Hv|split; reflexivity]]].
  destruct zerodateasfloat; cbn [negb] in Hq.
  - left. destruct zerodate as [s|x]; [discriminate|]. injection Hq as ->. auto.
  - right. split; [reflexivity|]. destruct zerodate as [s|x]; [|discriminate].
    exists s. split; [reflexivity|].
    destruct (strptime_num s "%b-%Y"); [|discriminate]. injection Hq as ->. reflexivity.
Qed.

Lemma rezero_series_run (series dates : ref) (zerodate : pyval)
  (zerodateasfloat : bool) (h : heap) (q : Q) (idx : nat) (v : Q) :
  reference_date zerodate zerodateasfloat q ->
  np_argmin (map (fun d => Qabs (d - q)) (deref h dates)) = Ok idx ->
  nth_error (deref h series) idx = Some v ->
  rezero_series series dates zerodate zerodateasfloat h
  = Ok (length h, (h ++ [map (fun x => x - v) (deref h series)])%list).
Proof.
  intros Href Hidx Hv. unfold rezero_series. apply getitem_ok in Hv.
  destruct Href as [[-> ->]|(-> & s & -> & Hs)];
    cbn [negb]; [|rewrite Hs]; cbn [of_option bind];
    rewrite Hidx; cbn [bind]; rewrite Hv; reflexivity.
Qed.

Lemma np_argmin_lt (l : list Q) (i : nat) : np_argmin l = Ok i -> (i < length l)%nat.
Proof.
  intro H. destruct l as [|x r]; [discriminate|].
  destruct (np_argmin_min (x :: r)) as (k & v & Hk & _ & Hn & _); [discriminate|].
  rewrite Hk in H. injection H as <-. apply nth_error_Some. congruence.
Qed.

(** X18: a successful [rezero_series] returns a new array of the length
    of the series, every value shifted by the same amount, and that
    amount is the series' value at the chosen date: the new value there is
    0.  The chosen position is a position of the date axis. *)
Theorem rezero_series_zero_at_reference (series dates : ref) (zerodate : pyval)
  (zerodateasfloat : bool) (h h' : heap) (r : ref) :
  rezero_series series dates zerodate zerodateasfloat h = Ok (r, h') ->
  exists idx v,
    (idx < length (deref h dates))%nat /\
    nth_error (deref h series) idx = Some v /\
    length (deref h' r) = length (deref h series) /\
    (forall j a, nth_error (deref h series) j = Some a ->
       exists a', nth_error (deref h' r) j = Some a' /\ a' == a - v) /\
    (exists x, nth_error (deref h' r) idx = Some x /\ x == 0).
Proof.
  intro H. apply rezero_series_inv in H.
  destruct H as (q & idx & v & _ & Hidx & Hv & -> & ->).
  exists idx, v. rewrite deref_new.
  split; [apply np_argmin_lt in Hidx; rewrite length_map in Hidx; exact Hidx|].
  split; [exact Hv|]. split; [apply length_map|]. split.
  - intros j a Ha. exists (a - v). rewrite nth_error_map, Ha. split; reflexivity.
  - exists (v - v). rewrite nth_error_map, Hv. split; [reflexivity | ring].
Qed.

(** X19: re-zeroing is idempotent: re-zeroing the result again, with the
    same dates and reference date, succeeds and gives the same values. *)
Theorem rezero_series_idempotent (series dates : ref) (zerodate : pyval)
  (zerodateasfloat : bool) (h h' : heap) (r : ref) :
  rezero_series series dates zerodate zerodateasfloat h = Ok (r, h') ->
  exists r2 h2,
    rezero_series r dates zerodate zerodateasfloat h' = Ok (r2, h2) /\
    Forall2 Qeq (deref h2 r2) (deref h' r).
Proof.
  intro H. apply rezero_series_inv in H.
  destruct H as (q & idx & v & Href & Hidx & Hv & -> & ->).
  assert (Hd : (dates < length h)%nat).
  { destruct (Nat.lt_ge_cases dates (length h)) as [Hlt|Hge]; [exact Hlt|].
    unfold deref in Hidx. rewrite nth_overflow in Hidx by exact Hge. discriminate. }
  set (new := map (fun x => x - v) (deref h series)).
  assert (Hnew : nth_error new idx = Some (v - v)).
  { unfold new. rewrite nth_error_map, Hv. reflexivity. }
  eexists. eexists. split.
  - apply (rezero_series_run (length h) dates zerodate zerodateasfloat
             (h ++ [new]) q idx (v - v) Href).
    + rewrite deref_old by exact Hd. exact Hidx.
    + rewrite deref_new. exact Hnew.
  - rewrite !deref_new. clear Hnew. clearbody new.
    induction new as [|x l IH]; simpl; constructor; [ring | exact IH].
Qed.

(** X20: how [rezero_series] fails: a reference date of the wrong kind
    for [zerodateasfloat] raises TypeError, a string that does not parse
    as 'Mon-YYYY' raises ValueError, an empty date axis raises ValueError,
    and a series shorter than the chosen date position raises
    IndexError. *)
Theorem rezero_series_errors (series dates : ref) (h : heap) :
  (forall x, rezero_series series dates (PyNum x) false h = Raise TypeError) /\
  (forall s, rezero_series series dates (PyStr s) true h = Raise TypeError) /\
  (forall s, strptime_num s "%b-%Y" = None ->
             rezero_series series dates (PyStr s) false h = Raise ValueError) /\
  (forall zerodate zerodateasfloat q,
      reference_date zerodate zerodateasfloat q ->
      deref h dates = [] ->
      rezero_series series dates zerodate zerodateasfloat h = Raise ValueError) /\
  (forall zerodate zerodateasfloat q idx,
      reference_date zerodate zerodateasfloat q ->
      np_argmin (map (fun d => Qabs (d - q)) (deref h dates)) = Ok idx ->
      (length (deref h series) <= idx)%nat ->
      rezero_series series dates zerodate zerodateasfloat h = Raise IndexError).
Proof.
  split; [|split; [|split; [|split]]].
  - reflexivity.
  - reflexivity.
  - intros s Hs. unfold rezero_series. cbn [negb]. rewrite Hs. reflexivity.
  - intros z f q Href Hd. unfold rezero_series.
    destruct Href as [[-> ->]|(-> & s & -> & Hs)];
      cbn [negb]; [|rewrite Hs]; cbn [of_option bind]; rewrite Hd; reflexivity.
  - intros z f q idx Href Hidx Hshort. unfold rezero_series.
    apply nth_error_None in Hshort.
    destruct Href as [[-> ->]|(-> & s & -> & Hs)];
      cbn [negb]; [|rewrite Hs]; cbn [of_option bind];
      rewrite Hidx; cbn [bind]; unfold getitem; rewrite Hshort; reflexivity.
Qed.

(** ** More on the straight-line fit *)





(** ** More on the sinusoid fit *)

(** X22: the sinusoid fit reads the date of the first downturn: a date
    axis that ends before that point raises IndexError, before the solver
    is called. *)
Theorem sinusoid_fit_short_dates (Series dates : list Q) (i : nat) :
  first_downturn_at Series i ->
  (length dates <= i)%nat ->
  fit_sinusoid_to_series Series dates = Raise IndexError.
Proof.
  intros Hfd Hshort. unfold fit_sinusoid_to_series, guess_phase.
  rewrite (first_downturn_some Series i Hfd). cbn [bind].
  apply nth_error_None in Hshort. unfold getitem. rewrite Hshort. reflexivity.
Qed.

End Model.

(** ** The model run on concrete inputs *)

Lemma sqrt_trunc_zero (x : Q) : x == 0 -> sqrt_trunc x == 0.
Proof.
  intro H. unfold Qeq in H. simpl in H. rewrite Z.mul_1_r in H.
  unfold sqrt_trunc. rewrite H. reflexivity.
Qed.

Lemma sqrt_trunc_nonneg (x : Q) : 0 <= x -> 0 <= sqrt_trunc x.
Proof.
  intros _. unfold sqrt_trunc, Qle. simpl. rewrite Z.mul_1_r.
  apply Z.sqrt_nonneg.
Qed.

Lemma clip_within (b : Q * Q) (v : npfloat) :
  fst b <= snd b -> within b (clip b v).
Proof.
  intro Hb. unfold within, clip. destruct v as [q|]; [|split; [lra | exact Hb]].
  destruct (Qltb q (fst b)) eqn:E1; [split; [lra | exact Hb]|].
  apply Qltb_ge in E1.
  destruct (Qltb (snd b) q) eqn:E2; [split; [exact Hb | lra]|].
  apply Qltb_ge in E2. split; assumption.
Qed.

Lemma minimize_projected_in_bounds
  (f : Q * Q * Q * Q -> result npfloat)
  (g : npfloat * npfloat * npfloat * npfloat) (b : bounds) (r : OptimizeResult) :
  minimize_projected f g b = Ok r -> in_bounds b (sln_x r).
Proof.
  destruct g as [[[g0 g1] g2] g3]. destruct b as [[[b0 b1] b2] b3].
  unfold minimize_projected.
  destruct (feasible b0 && feasible b1 && feasible b2 && feasible b3) eqn:E;
    [|discriminate].
  apply andb_prop in E. destruct E as [E E3].
  apply andb_prop in E. destruct E as [E E2].
  apply andb_prop in E. destruct E as [E0 E1].
  intro H. apply bind_ok in H. destruct H as (v & _ & H). injection H as <-.
  unfold in_bounds. cbn [sln_x].
  repeat split; apply clip_within; apply Qle_bool_iff; assumption.
Qed.

Lemma minimize_projected_objective
  (f : Q * Q * Q * Q -> result npfloat)
  (g : npfloat * npfloat * npfloat * npfloat) (b : bounds) (r : OptimizeResult) :
  minimize_projected f g b = Ok r -> f (sln_x r) = Ok (sln_fun r).
Proof.
  destruct g as [[[g0 g1] g2] g3]. destruct b as [[[b0 b1] b2] b3].
  unfold minimize_projected.
  destruct (feasible b0 && feasible b1 && feasible b2 && feasible b3);
    [|discriminate].
  intro H. apply bind_ok in H. destruct H as (v & Hv & H). injection H as <-.
  cbn [sln_x sln_fun]. exact Hv.
Qed.

Lemma extract_from_polygon_filters_witness :
  extract_from_polygon bbox_contains [0; 1; 1; 0] [0; 0; 1; 1] square_data
  = Ok (mkDataFrame (columns square_data) [[1 # 2; 1 # 2; 1]; [1 # 5; 7 # 10; 9]]).
Proof.
  refine (proj1 (extract_from_polygon_filters bbox_contains
                   [0; 1; 1; 0] [0; 0; 1; 1] square_data 0%nat 1%nat
                   eq_refl eq_refl eq_refl _ _)); discriminate.
Defined.

Lemma undated_data_no_date_column : no_date_column undated_data.
Proof.
  intros h [<-|[<-|[<-|[]]]]; reflexivity.
Qed.

Lemma no_date_column_index_error_witness :
  get_dates digits_datenum undated_data = Raise IndexError /\
  get_mean_series undated_data = Raise IndexError /\
  extract_series_from_latlon sqrt_trunc digits_datenum 0 0 undated_data 1
  = Raise IndexError.
Proof.
  destruct (no_date_column_index_error sqrt_trunc digits_datenum undated_data)
    as (Hd & Hm & Hok & _).
  - intros h [<-|[<-|[<-|[]]]]; reflexivity.
  - split; [exact Hd|]. split; [exact Hm|].
    apply (Hok 0 0 1 0%nat). reflexivity.
Defined.

(** C9 as stated fails: with no date column and a query farther than 0.5
    degree from every pixel, the extraction stops at its nearest-pixel
    check with the "No pixels found" exception, not with IndexError. *)
Lemma no_date_column_far_query :
  ~ (forall Data : DataFrame,
        no_date_column Data ->
        get_dates digits_datenum Data = Raise IndexError /\
        get_mean_series Data = Raise IndexError /\
        (forall lat lon factor,
            extract_series_from_latlon sqrt_trunc digits_datenum lat lon Data factor
            = Raise IndexError)).
Proof.
  intro H.
  destruct (H undated_data undated_data_no_date_column) as (_ & _ & He).
  specialize (He 10 10 1). vm_compute in He. discriminate He.
Qed.


Lemma nearest_record_extraction_witness :
  extract_series_from_latlon sqrt_trunc digits_datenum 0 0 sample_data 2
  = Ok ([20150101; 20150113], [2 * 1; 2 * 2]).
Proof.
  destruct (nearest_record_extraction sqrt_trunc digits_datenum 0 0 2 sample_data
              0%nat 1%nat 2%nat [20150101; 20150113]
              sqrt_trunc_zero sqrt_trunc_nonneg eq_refl eq_refl eq_refl eq_refl)
    as (_ & _ & Hsel & _).
  apply (Hsel 0%nat [0; 0; 1; 2]).
  - reflexivity.
  - reflexivity.
  - intros r' [<-|[<-|[<-|[]]]]; vm_compute; discriminate.
  - intros j r' Hj. lia.
Defined.

Lemma rezero_series_nearest_date_witness :
  exists i a v,
    first_least (map (fun d => Qabs (d - 10)) (deref sample_heap 1%nat)) i a /\
    nth_error (deref sample_heap 0%nat) i = Some v /\
    rezero_series digits_datenum 0%nat 1%nat (PyNum 10) true sample_heap
    = Ok (length sample_heap,
          (sample_heap ++ [map (fun x => x - v) (deref sample_heap 0%nat)])%list) /\
    i = 0%nat.
Proof.
  destruct (rezero_series_nearest_date digits_datenum sample_heap 0%nat 1%nat (PyNum 10) true 10)
    as (i & a & v & Hfl & Hv & Hrun & _ & _ & Hzero).
  - left. split; reflexivity.
  - discriminate.
  - simpl. lia.
  - exists i, a, v. split; [exact Hfl|]. split; [exact Hv|]. split; [exact Hrun|].
    apply (Hzero 10); reflexivity.
Defined.

Lemma segment_line_to_boxes_no_points_witness :
  segment_line_to_boxes flat_distance 0 (1 # 1000) 0 0 1000 100 = Raise ValueError.
Proof.
  apply segment_line_to_boxes_no_points.
  - intro H. discriminate H.
  - intro H. vm_compute in H. discriminate H.
  - reflexivity.
Defined.

Lemma guess_slope_zero_span_witness :
  guess_slope [5] [3] = Ok NonFin.
Proof.
  destruct (guess_slope_zero_span sqrt_trunc leastsq_start [5] [3] 3 3)
    as (Hsame & _).
  - discriminate.
  - reflexivity.
  - reflexivity.
  - apply Hsame. reflexivity.
Defined.

Lemma line_fit_guess_and_misfit_witness :
  exists slope0 misfit,
    slope0 == 2 /\
    fit_straight_line_to_series sqrt_trunc leastsq_start [5; 7; 9] [0; 1; 2]
    = Ok (Fin misfit, Fin slope0, Fin 5) /\
    misfit == misfit_spec sqrt_trunc slope0 5 0 (combine [0; 1; 2] [5; 7; 9]).
Proof.
  destruct (line_fit_guess_and_misfit sqrt_trunc leastsq_start
              [5; 7; 9] [0; 1; 2] 5 0 2)
    as (slope0 & Hs & _ & Hok).
  - reflexivity.
  - reflexivity.
  - reflexivity.
  - intro H. discriminate H.
  - reflexivity.
  - destruct (Hok slope0 5 eq_refl) as (misfit & Hfit & Hm).
    exists slope0, misfit. split; [|split; assumption].
    rewrite (Hs 9 5).
    + reflexivity.
    + split; [simpl; tauto|].
      intros x [<-|[<-|[<-|[]]]]; vm_compute; discriminate.
    + split; [simpl; tauto|].
      intros x [<-|[<-|[<-|[]]]]; vm_compute; discriminate.
Defined.

Lemma sinusoid_fit_within_bounds_witness :
  exists misfit amp period phase mean,
    fit_sinusoid_to_series sqrt_trunc sin_series pi_approx minimize_projected
      [5; 7; 6; 9] [0; 1; 2; 3]
    = Ok (misfit, amp, period, phase, mean) /\
    (0 <= amp /\ amp <= 30) /\ (0 <= period /\ period <= 400) /\
    (-20 <= phase /\ phase <= 400) /\ (0 <= mean /\ mean <= 100).
Proof.
  do 5 eexists. split; [vm_compute; reflexivity|].
  destruct (sinusoid_fit_within_bounds sqrt_trunc sin_series pi_approx minimize_projected
              [5; 7; 6; 9] [0; 1; 2; 3] _ _ _ _ _
              minimize_projected_in_bounds minimize_projected_objective eq_refl)
    as (Ha & Hp & Hph & Hm & _).
  repeat split; tauto.
Defined.

Lemma segment_line_to_boxes_count_witness :
  exists BOXESX BOXESY lats lons,
    segment_line_to_boxes flat_distance 0 (1 # 100) 0 0 500 100
    = Ok (BOXESX, BOXESY, lats, lons) /\
    length BOXESX = 1%nat /\ length lats = 2%nat /\ Forall closed_ring BOXESX.
Proof.
  destruct (segment_line_to_boxes_count flat_distance 0 (1 # 100) 0 0 500 100)
    as (BX & BY & lats & lons & Hrun & Hx & _ & Hl & _ & Hc & _).
  - reflexivity.
  - reflexivity.
  - reflexivity.
  - intro H. discriminate H.
  - intro H. vm_compute in H. discriminate H.
  - vm_compute. discriminate.
  - exists BX, BY, lats, lons. repeat split; assumption.
Defined.

Lemma segment_boxes_centred_on_line_witness :
  exists BOXESX BOXESY lats lons,
    segment_line_to_boxes flat_distance 0 (1 # 100) 0 0 500 100
    = Ok (BOXESX, BOXESY, lats, lons) /\
    length BOXESX = (length lats - 1)%nat.
Proof.
  do 4 eexists. split; [vm_compute; reflexivity|].
  refine (proj1 (segment_boxes_centred_on_line flat_distance 0 (1 # 100) 0 0 500 100
                   _ _ _ _ _)).
  vm_compute. reflexivity.
Defined.

Lemma segment_boxes_adjacent_witness :
  exists BOXESX BOXESY lats lons bx bx',
    segment_line_to_boxes flat_distance 0 (1 # 100) 0 0 300 100
    = Ok (BOXESX, BOXESY, lats, lons) /\
    nth_error BOXESX 0 = Some bx /\ nth_error BOXESX 1 = Some bx' /\
    nth_error bx 1 = nth_error bx' 0 /\ nth_error bx 2 = nth_error bx' 3.
Proof.
  do 6 eexists. split; [vm_compute; reflexivity|].
  split; [reflexivity|]. split; [reflexivity|].
  refine (let H := segment_boxes_adjacent flat_distance 0 (1 # 100) 0 0 300 100
                     _ _ _ _ _ 0%nat _ _ _ _ _ _ _ _ in
          conj (proj1 H) (proj1 (proj2 H)));
    reflexivity.
Defined.

Lemma segment_sample_points_witness :
  exists BOXESX BOXESY lats lons,
    segment_line_to_boxes flat_distance 0 (1 # 100) 0 0 300 100
    = Ok (BOXESX, BOXESY, lats, lons) /\
    length lats = 3%nat.
Proof.
  do 4 eexists. split; [vm_compute; reflexivity|].
  refine (proj1 (segment_sample_points flat_distance 0 (1 # 100) 0 0 300 100
                   _ _ _ _ _)).
  vm_compute. reflexivity.
Defined.

Lemma get_dates_every_label_witness :
  get_dates digits_datenum sample_data = Ok [20150101; 20150113].
Proof.
  apply (proj1 (get_dates_every_label digits_datenum sample_data 2%nat eq_refl)).
  repeat constructor.
Defined.

Lemma extract_series_aligned_witness :
  get_dates digits_datenum sample_data = Ok [20150101; 20150113].
Proof.
  exact (proj1 (extract_series_aligned sqrt_trunc digits_datenum 0 0 2 sample_data
                  [20150101; 20150113] [2 * 1; 2 * 2] eq_refl)).
Defined.

Lemma nearest_pixel_tolerance_monotone_witness :
  plot_series_latlon_index sqrt_trunc 0 0 sample_data = Ok 0%nat.
Proof.
  refine (proj2 (nearest_pixel_tolerance_monotone sqrt_trunc (1 # 2) 1
                   no_pixels_half no_pixels_one 0 0 sample_data 0%nat _ eq_refl) _).
  - discriminate.
  - reflexivity.
Defined.

Lemma extract_from_polygon_idempotent_witness :
  extract_from_polygon bbox_contains [0; 1; 1; 0] [0; 0; 1; 1]
    (mkDataFrame (columns square_data) [[1 # 2; 1 # 2; 1]; [1 # 5; 7 # 10; 9]])
  = Ok (mkDataFrame (columns square_data) [[1 # 2; 1 # 2; 1]; [1 # 5; 7 # 10; 9]]).
Proof.
  refine (proj1 (proj2 (proj2 (proj2 (proj2
            (extract_from_polygon_idempotent digits_datenum bbox_contains
               [0; 1; 1; 0] [0; 0; 1; 1] square_data _ _))))) _).
  - reflexivity.
  - discriminate.
Defined.


Lemma remove_rows_all_zeros_keeps_witness :
  exists data_filtered,
    remove_rows_all_zeros zeros_data = Ok data_filtered /\
    columns data_filtered = columns zeros_data.
Proof.
  destruct (remove_rows_all_zeros_keeps zeros_data 0%nat 1%nat eq_refl eq_refl)
    as (D & keep & Hrun & Hcols & _).
  exists D. split; assumption.
Defined.

Lemma import_InSAR_csv_rename_columns_witness :
  getcol (import_InSAR_csv_rename xy_data) "Longitude" = getcol xy_data "X" /\
  getcol (import_InSAR_csv_rename xy_data) "Latitude" = getcol xy_data "Y".
Proof.
  exact (proj1 (proj2 (import_InSAR_csv_rename_columns xy_data eq_refl eq_refl))
           eq_refl eq_refl).
Defined.

Lemma rezero_series_zero_at_reference_witness :
  exists idx v,
    (idx < length (deref sample_heap 1%nat))%nat /\
    nth_error (deref sample_heap 0%nat) idx = Some v.
Proof.
  destruct (rezero_series_zero_at_reference digits_datenum 0%nat 1%nat (PyNum 19) true
              sample_heap _ _ eq_refl) as (idx & v & Hi & Hv & _).
  exists idx, v. split; assumption.
Defined.

Lemma rezero_series_idempotent_witness :
  exists r2 h2,
    rezero_series digits_datenum 2%nat 1%nat (PyNum 19) true
      (sample_heap ++ [[5 - 7; 7 - 7; 9 - 7]])
    = Ok (r2, h2).
Proof.
  destruct (rezero_series_idempotent digits_datenum 0%nat 1%nat (PyNum 19) true
              sample_heap _ _ eq_refl) as (r2 & h2 & Hrun & _).
  exists r2, h2. exact Hrun.
Defined.


Lemma sinusoid_fit_short_dates_witness :
  fit_sinusoid_to_series sqrt_trunc sin_series pi_approx minimize_projected
    [5; 7; 6; 9] [0] = Raise IndexError.
Proof.
  apply (sinusoid_fit_short_dates sqrt_trunc sin_series pi_approx minimize_projected
           [5; 7; 6; 9] [0] 1%nat).
  - split.
    + exists 7, 6. split; [reflexivity|]. split; [reflexivity|]. discriminate.
    + intros j Hj (a & b & Ha & Hb & Hle).
      assert (j = 0%nat) by lia. subst j. simpl in Ha, Hb.
      injection Ha as <-. injection Hb as <-. vm_compute in Hle. apply Hle. reflexivity.
  - simpl. lia.
Defined.
